(** * football_app: the resilient fetch layer of [app.py]

    A shallow embedding of the request path of [app.py]: the retry loop
    [get_with_retries], the form [LeagueSelectForm], the [/matches] view,
    the way the view is registered with Flask and wrapped by Flask-Caching,
    and the request quota configured on the [Limiter].

    Python values coming from JSON are the type [json]; a [dict] is a
    [gmap], a [list] is a [list].  Effects (outbound HTTP calls, [time.sleep],
    the cache store) are threaded through an explicit [World]; exceptions are
    the [Raise] case of [Result].  Calls to [app.logger] are left out: they
    never influence control flow or any value that is returned. *)

From stdpp Require Import gmap strings list pretty sorting.

Local Set Warnings "-register-all".
Local Open Scope Z_scope.

(** ** Python values *)

(** What [json.loads] / [response.json()] produces.  Numbers that occur in
    the upstream payload (team ids, goals) are integers. *)
Inductive json :=
| JNull
| JBool (b : bool)
| JNum (n : Z)
| JStr (s : string)
| JArr (l : list json)
| JObj (m : gmap string json).

(** A [requests.Response]: the fields the program reads.  [json_] is the
    outcome of [response.json()]: [None] when the body is not JSON, and
    then [json_error] is the text of the [JSONDecodeError] the decoder
    raises for this body. *)
Record Response := mkResponse {
  status_code : Z;
  reason : string;
  url_of : string;
  text : string;
  json_ : option json;
  json_error : string
}.

(** The exception classes that can reach the program.  [TransportError]
    stands for the [requests] exceptions raised when no HTTP response was
    obtained ([ConnectionError], [Timeout], ...): they derive from
    [RequestException] but not from [HTTPError].  [HTTPException] is
    werkzeug's (404, 405, 429). *)
Inductive exn :=
| HTTPError (msg : string) (response : Response)
| TransportError (msg : string)
| PyException (msg : string)
| KeyError (key : string)
| TypeError (msg : string)
| AttributeError (msg : string)
| JSONDecodeError (msg : string)
| HTTPException (code : Z) (description : string).

(** [isinstance(e, requests.exceptions.HTTPError)] *)
Definition is_HTTPError (e : exn) : bool :=
  match e with HTTPError _ _ => true | _ => false end.

(** [str(e)] *)
Definition str_exn (e : exn) : string :=
  match e with
  | HTTPError msg _ => msg
  | TransportError msg => msg
  | PyException msg => msg
  | KeyError key => "'" +:+ key +:+ "'"
  | TypeError msg => msg
  | AttributeError msg => msg
  | JSONDecodeError msg => msg
  | HTTPException code description => pretty code +:+ " " +:+ description
  end.

(** ** WTForms: [SelectField] and [LeagueSelectForm] *)

Record SelectField := mkSelectField {
  choices : list (string * string);
  data : option string;
  errors : list string
}.

Record LeagueSelectForm := mkLeagueSelectForm {
  league : SelectField;
  gameweek : SelectField
}.

(** ** Rendered pages *)

(** A keyword argument of [render_template]: a form or a JSON-like value
    ([None] is [JNull], a list of dicts is a [JArr] of [JObj]). *)
Inductive pyval :=
| PForm (f : LeagueSelectForm)
| PJson (j : json).

(** [render_template(template, **context)] *)
Record Page := mkPage {
  template : string;
  context : gmap string pyval
}.

Definition render_template (t : string) (ctx : list (string * pyval)) : Page :=
  mkPage t (list_to_map ctx).

(** ** The world the handlers run in *)

(** What one outbound [requests.get] does: a response came back, or the
    call failed below HTTP (connection refused, timeout). *)
Inductive NetResult :=
| Replied (r : Response)
| Failed (msg : string).

(** Flask-Caching's key for [query_string=True]: the request path and the
    sorted query-string arguments (the library stores a digest of the
    latter; the pair is kept here, so distinct inputs never collide). *)
Definition CacheKey : Type := string * list (string * string).

Inductive event :=
| EvGet (url : string) (headers : list (string * string))
| EvSleep (secs : Z)
| EvCacheGet (key : CacheKey)
| EvCacheSet (key : CacheKey).

(** [upstream n url] is what the [n]-th outbound call of the process
    (counted from 0) gets when it asks for [url]; [ncalls] counts the calls
    made so far; [trace] lists the effects in the order they happened;
    [cache] is the store of the [simple] cache: expiry time and value;
    [favorites] is what [load_favorites] reads. *)
Record World := mkWorld {
  upstream : nat → string → NetResult;
  ncalls : nat;
  now : Z;
  trace : list event;
  cache : gmap CacheKey (Z * Page);
  favorites : list json
}.

Definition log_event (e : event) (w : World) : World :=
  mkWorld (upstream w) (ncalls w) (now w) (trace w ++ [e]) (cache w) (favorites w).

Definition count_call (w : World) : World :=
  mkWorld (upstream w) (S (ncalls w)) (now w) (trace w) (cache w) (favorites w).

Definition advance (d : Z) (w : World) : World :=
  mkWorld (upstream w) (ncalls w) (now w + d) (trace w) (cache w) (favorites w).

Definition set_now (t : Z) (w : World) : World :=
  mkWorld (upstream w) (ncalls w) t (trace w) (cache w) (favorites w).

Definition set_cache (c : gmap CacheKey (Z * Page)) (w : World) : World :=
  mkWorld (upstream w) (ncalls w) (now w) (trace w) c (favorites w).

(** ** Computations that may raise *)

Inductive Result (A : Type) :=
| Ok (a : A)
| Raise (e : exn).
Arguments Ok {A} a.
Arguments Raise {A} e.

Definition M (A : Type) : Type := World → Result A * World.

Definition ret {A} (a : A) : M A := λ w, (Ok a, w).

Definition raise {A} (e : exn) : M A := λ w, (Raise e, w).

Definition bind {A B} (c : M A) (k : A → M B) : M B :=
  λ w, match c w with
       | (Ok a, w') => k a w'
       | (Raise e, w') => (Raise e, w')
       end.

(** [try: body  except <handles>: handler] *)
Definition try_except {A} (body : M A) (handles : exn → bool)
    (handler : exn → M A) : M A :=
  λ w, match body w with
       | (Ok a, w') => (Ok a, w')
       | (Raise e, w') => if handles e then handler e w' else (Raise e, w')
       end.

(** Lifting a pure computation that may raise. *)
Definition lift {A} (r : Result A) : M A := λ w, (r, w).

Notation "x <- c1 ;; c2" := (bind c1 (λ x, c2))
  (at level 100, c1 at next level, right associativity).
Notation "c1 ;;; c2" := (bind c1 (λ _, c2))
  (at level 100, right associativity).

(** Pure bind, for code that raises but has no other effect. *)
Definition rbind {A B} (r : Result A) (k : A → Result B) : Result B :=
  match r with
  | Ok a => k a
  | Raise e => Raise e
  end.

(** ** [requests] and [time] *)

(** [requests.get(url, headers=headers)] *)
Definition requests_get (url : string) (headers : list (string * string))
    : M Response :=
  λ w, let w' := count_call (log_event (EvGet url headers) w) in
       match upstream w (ncalls w) url with
       | Replied r => (Ok r, w')
       | Failed msg => (Raise (TransportError msg), w')
       end.

(** [Response.raise_for_status()]: raises for 4xx and 5xx. *)
Definition raise_for_status (r : Response) : Result unit :=
  if bool_decide (400 ≤ status_code r < 500) then
    Raise (HTTPError (pretty (status_code r) +:+ " Client Error: " +:+ reason r
                        +:+ " for url: " +:+ url_of r) r)
  else if bool_decide (500 ≤ status_code r < 600) then
    Raise (HTTPError (pretty (status_code r) +:+ " Server Error: " +:+ reason r
                        +:+ " for url: " +:+ url_of r) r)
  else Ok tt.

(** [time.sleep(secs)] *)
Definition sleep (secs : Z) : M unit :=
  λ w, (Ok tt, advance secs (log_event (EvSleep secs) w)).

(** ** [get_with_retries] *)

(** The body of [for attempt in range(max_retries)] with [remaining]
    iterations still to run and the current [retry_delay]; falling out of
    the loop reaches the final [raise].  Only [raise_for_status] raises an
    [HTTPError] inside the [try], so in the handler the local [response] is
    the response the caught exception carries. *)
Fixpoint retry_loop (url : string) (headers : list (string * string))
    (remaining : nat) (retry_delay : Z) : M Response :=
  match remaining with
  | O => raise (PyException "Max retries exceeded")
  | S remaining' =>
      try_except
        (response <- requests_get url headers ;;
         lift (raise_for_status response) ;;;
         ret response)
        is_HTTPError
        (λ e, match e with
              | HTTPError _ response =>
                  if bool_decide (status_code response = 429) then
                    sleep retry_delay ;;;
                    retry_loop url headers remaining' (retry_delay * 2)
                  else raise e
              | _ => raise e
              end)
  end.

Definition get_with_retries (url : string) (headers : list (string * string))
    (max_retries : nat) : M Response :=
  retry_loop url headers max_retries 1.

Definition default_max_retries : nat := 3.

(** ** Python operations on JSON values *)

Notation "x <~ r1 ;; r2" := (rbind r1 (λ x, r2))
  (at level 100, r1 at next level, right associativity).

Definition type_name (j : json) : string :=
  match j with
  | JNull => "NoneType"
  | JBool _ => "bool"
  | JNum _ => "int"
  | JStr _ => "str"
  | JArr _ => "list"
  | JObj _ => "dict"
  end.

(** [key in obj]: key lookup in a dict, element test in a list, substring
    test in a string, [TypeError] otherwise. *)
Definition py_contains (key : string) (obj : json) : Result bool :=
  match obj with
  | JObj m => Ok (match m !! key with Some _ => true | None => false end)
  | JArr l =>
      Ok (existsb (λ x, match x with JStr s => String.eqb s key | _ => false end) l)
  | JStr s => Ok (match String.index 0 key s with Some _ => true | None => false end)
  | _ => Raise (TypeError ("argument of type '" +:+ type_name obj
                             +:+ "' is not iterable"))
  end.

(** [obj[key]] with a string key *)
Definition py_getitem (obj : json) (key : string) : Result json :=
  match obj with
  | JObj m =>
      match m !! key with
      | Some v => Ok v
      | None => Raise (KeyError key)
      end
  | JArr _ => Raise (TypeError "list indices must be integers or slices, not str")
  | JStr _ => Raise (TypeError "string indices must be integers, not 'str'")
  | _ => Raise (TypeError ("'" +:+ type_name obj +:+ "' object is not subscriptable"))
  end.

(** [obj.get(key, dflt)] *)
Definition py_get (obj : json) (key : string) (dflt : json) : Result json :=
  match obj with
  | JObj m => Ok (default dflt (m !! key))
  | _ => Raise (AttributeError ("'" +:+ type_name obj
                                  +:+ "' object has no attribute 'get'"))
  end.

(** The items [for x in obj] runs through: the elements of a list, the keys
    of a dict, the characters of a string. *)
Definition py_iter (obj : json) : Result (list json) :=
  match obj with
  | JArr l => Ok l
  | JObj m => Ok (JStr <$> (map_to_list m).*1)
  | JStr s => Ok ((λ c, JStr (String c EmptyString)) <$> String.list_ascii_of_string s)
  | _ => Raise (TypeError ("'" +:+ type_name obj +:+ "' object is not iterable"))
  end.

(** A list comprehension whose element expression may raise: elements are
    computed left to right and the first exception ends it. *)
Fixpoint comprehension {A B} (f : A → Result B) (l : list A) : Result (list B) :=
  match l with
  | [] => Ok []
  | x :: l' => y <~ f x ;; ys <~ comprehension f l' ;; Ok (y :: ys)
  end.

(** [response.json()] *)
Definition response_json (r : Response) : Result json :=
  match json_ r with
  | Some j => Ok j
  | None => Raise (JSONDecodeError (json_error r))
  end.

(** ** [LeagueSelectForm] *)

Definition league_choices : list (string * string) :=
  [("PL", "Premier League"); ("SA", "Serie A"); ("BL1", "Bundesliga");
   ("FL1", "Ligue 1"); ("PD", "La Liga"); ("EC", "Euro 2024")].

(** [[(str(i), f'Gameweek {i}') for i in range(1, 39)]] *)
Definition gameweek_choices : list (string * string) :=
  (λ i : Z, (pretty i, "Gameweek " +:+ pretty i)) <$> seqZ 1 38.

(** An inbound request: what the handlers read from [flask.request]. *)
Record Request := mkRequest {
  method : string;
  path : string;
  args : list (string * string);
  form : list (string * string);
  remote_addr : string
}.

(** [formdata.getlist(name)] *)
Definition getlist (name : string) (formdata : list (string * string))
    : list string :=
  (filter (λ kv, kv.1 = name) formdata).*2.

(** [SelectField.process]: the field takes the first submitted value, and
    stays [None] when there is none. *)
Definition process (chs : list (string * string)) (name : string)
    (formdata : list (string * string)) : SelectField :=
  mkSelectField chs (head (getlist name formdata)) [].

(** [LeagueSelectForm(request.form)] *)
Definition new_LeagueSelectForm (formdata : list (string * string))
    : LeagueSelectForm :=
  mkLeagueSelectForm (process league_choices "league" formdata)
                     (process gameweek_choices "gameweek" formdata).

(** [SelectField.pre_validate]: the data must be the value of a choice. *)
Definition pre_validate (f : SelectField) : list string :=
  if existsb (λ c, bool_decide (Some c.1 = data f)) (choices f) then []
  else ["Not a valid choice."].

(** ASCII characters [str.strip()] removes. *)
Definition is_space (c : Ascii.ascii) : bool :=
  let n := Ascii.nat_of_ascii c in
  bool_decide ((9 ≤ n ≤ 13)%nat ∨ (28 ≤ n ≤ 32)%nat).

(** [DataRequired]: passes when the data is truthy and not blank. *)
Definition DataRequired (f : SelectField) : bool :=
  match data f with
  | Some s => negb (forallb is_space (String.list_ascii_of_string s))
  | None => false
  end.

(** [Field.validate]: [pre_validate] records its error, then the validator
    chain runs; a failing [DataRequired] replaces the errors by its own
    message. *)
Definition validate_field (f : SelectField) : SelectField :=
  mkSelectField (choices f) (data f)
    (if DataRequired f then pre_validate f else ["This field is required."]).

Definition is_submitted (request : Request) : bool :=
  bool_decide (method request ∈ ["POST"; "PUT"; "PATCH"; "DELETE"]).

(** [form.validate_on_submit()]: the form with its errors filled in, and the
    verdict.  CSRF checking is off ([WTF_CSRF_ENABLED = False] in
    [config.py]). *)
Definition validate_on_submit (request : Request) (f : LeagueSelectForm)
    : LeagueSelectForm * bool :=
  if is_submitted request then
    let l := validate_field (league f) in
    let g := validate_field (gameweek f) in
    (mkLeagueSelectForm l g,
     bool_decide (errors l = []) && bool_decide (errors g = []))
  else (f, false).

(** How an f-string renders field data. *)
Definition fmt (o : option string) : string := default "None" o.

(** [load_favorites()], for a favorites file that is absent (the list is
    then empty) or holds a JSON list.  A file that cannot be opened or
    decoded, where the call itself raises, is outside this definition;
    [matches_with] below takes the call as a parameter for that reason. *)
Definition load_favorites : M (list json) := λ w, (Ok (favorites w), w).

(** ** The favorites: [save_favorites] and [add_favorite] *)

Definition set_favorites (favs : list json) (w : World) : World :=
  mkWorld (upstream w) (ncalls w) (now w) (trace w) (cache w) favs.

(** [save_favorites(favorites)]: the file then holds the list ([json.dump]
    followed by [json.load] gives back a list of JSON values). *)
Definition save_favorites (favs : list json) : M unit :=
  λ w, (Ok tt, set_favorites favs w).

(** [request.form[name]]: the first submitted value; a missing key is
    werkzeug's [BadRequestKeyError], a 400. *)
Definition form_getitem (name : string) (request : Request) : M string :=
  match head (getlist name (form request)) with
  | Some v => ret v
  | None => raise (HTTPException 400 "Bad Request")
  end.

(** [s == j] for a string [s] and a JSON value [j]: equal strings only. *)
Definition py_eq_str (s : string) (j : json) : bool :=
  match j with
  | JStr s' => String.eqb s s'
  | _ => false
  end.

(** What [redirect(...)] returns. *)
Record Redirect := mkRedirect {
  location : string;
  code : Z
}.

(** [def add_favorite()]; [url_for('index')] is the rule of [index]. *)
Definition add_favorite (request : Request) : M Redirect :=
  team_id <- form_getitem "team_id" request ;;
  team_name <- form_getitem "team_name" request ;;
  favorites <- load_favorites ;;
  ids <- lift (comprehension (λ fav, py_getitem fav "id") favorites) ;;
  (if negb (existsb (py_eq_str team_id) ids) then
     save_favorites
       (favorites ++ [JObj (list_to_map [("id", JStr team_id);
                                         ("name", JStr team_name)])])
   else ret tt) ;;;
  ret (mkRedirect "/" 302).

(** The dict built for one upstream match. *)
Definition shape_match (match_ : json) : Result (gmap string json) :=
  homeTeam <~ py_getitem match_ "homeTeam" ;;
  homeTeamName <~ py_getitem homeTeam "name" ;;
  homeTeam' <~ py_getitem match_ "homeTeam" ;;
  homeTeamId <~ py_getitem homeTeam' "id" ;;
  awayTeam <~ py_getitem match_ "awayTeam" ;;
  awayTeamName <~ py_getitem awayTeam "name" ;;
  awayTeam' <~ py_getitem match_ "awayTeam" ;;
  awayTeamId <~ py_getitem awayTeam' "id" ;;
  utcDate <~ py_getitem match_ "utcDate" ;;
  venue <~ py_get match_ "venue" (JStr "N/A") ;;
  status <~ py_getitem match_ "status" ;;
  score <~ py_getitem match_ "score" ;;
  Ok (list_to_map
        [("homeTeam", homeTeamName); ("homeTeamId", homeTeamId);
         ("awayTeam", awayTeamName); ("awayTeamId", awayTeamId);
         ("utcDate", utcDate); ("venue", venue);
         ("status", status); ("score", score)]).

(** ** The request quota *)

Module Limiter.

(** One entry of [default_limits]: at most [cap] requests per window of
    [period] seconds. *)
Record Limit := mkLimit {
  cap : nat;
  period : Z
}.

(** The counters: for a caller and a period, the window the counter
    belongs to and the requests counted in it. *)
Abbreviation storage := (gmap (string * Z) (Z * nat)).

(** Modelled from the spec: the counting of the Admission Limiter, which
    the Flask-Limiter package does and the sources only configure.  One
    counter per caller identity and window size; windows are fixed and
    aligned to the clock (the [t `div` period]-th window), and a counter
    read in a later window than the one it was written in counts as
    zero. *)
Definition counter (st : storage) (caller : string) (l : Limit) (t : Z) : nat :=
  match st !! (caller, period l) with
  | Some (window, n) => if bool_decide (window = t `div` period l) then n else O
  | None => O
  end.

(** Modelled from the spec: the Admission Limiter's [allow], absent from
    the sources like [counter].  A request is allowed only if every
    counter of the caller is below its cap; an allowed request increments
    every counter, a denied one changes nothing. *)
Definition allow (limits : list Limit) (caller : string) (t : Z)
    (st : storage) : bool * storage :=
  if forallb (λ l, bool_decide (counter st caller l t < cap l)%nat) limits then
    (true,
     foldr (λ l acc, <[(caller, period l) :=
                         (t `div` period l, S (counter st caller l t))]> acc)
           st limits)
  else (false, st).

End Limiter.

(** [default_limits=["200 per day", "50 per hour"]] *)
Definition default_limits : list Limiter.Limit :=
  [Limiter.mkLimit 200 86400; Limiter.mkLimit 50 3600].

(** [flask_limiter.util.get_remote_address], the limiter's key function *)
Definition get_remote_address (request : Request) : string :=
  if bool_decide (remote_addr request = "") then "127.0.0.1"
  else remote_addr request.

Section App.

(** [API_KEY = app.config['FOOTBALL_DATA_API_KEY']], read from the
    environment when the module is loaded. *)
Variable API_KEY : string.

(** [def index()] *)
Definition index (request : Request) : M Page :=
  let form := mkLeagueSelectForm (mkSelectField league_choices None [])
                                 (mkSelectField gameweek_choices None []) in
  favs <- load_favorites ;;
  ret (render_template "index.html"
         [("form", PForm form); ("favorites", PJson (JArr favs))]).

(** The body of [def matches()], before any decorator is applied.  The [try]
    block yields the pair [(matches_info, error)] its assignments leave
    behind; the handler leaves [matches_info] at [None]. *)
Definition matches_def (request : Request) : M Page :=
  let '(form, valid) :=
    validate_on_submit request (new_LeagueSelectForm (form request)) in
  if valid then
    let league_code := data (league form) in
    let gameweek := data (gameweek form) in
    let url := "https://api.football-data.org/v4/competitions/"
               +:+ fmt league_code +:+ "/matches?matchday=" +:+ fmt gameweek in
    let headers := [("X-Auth-Token", API_KEY)] in
    outcome <-
      try_except
        (response <- get_with_retries url headers default_max_retries ;;
         data <- lift (response_json response) ;;
         found <- lift (py_contains "matches" data) ;;
         if found : bool then
           matches_info <- lift (ms <~ py_getitem data "matches" ;;
                                 items <~ py_iter ms ;;
                                 comprehension shape_match items) ;;
           ret (JArr (JObj <$> matches_info), JNull)
         else
           ret (JNull,
                JStr "No matches found for the given league code and gameweek."))
        (λ _, true)
        (λ e, ret (JNull, JStr (str_exn e))) ;;
    let '(matches_info, error) := outcome in
    favs <- load_favorites ;;
    ret (render_template "index.html"
           [("form", PForm form); ("matches", PJson matches_info);
            ("error", PJson error); ("favorites", PJson (JArr favs))])
  else
    favs <- load_favorites ;;
    ret (render_template "index.html"
           [("form", PForm form); ("favorites", PJson (JArr favs))]).


(** The body of [def matches()] once more, with the call it makes for the
    favorites as a parameter: [load] stands for [load_favorites()], whatever
    the favorites file holds and whether or not it can be read and decoded.
    Both calls are outside the [try] block. *)
Definition matches_with (load : M json) (request : Request) : M Page :=
  let '(form, valid) :=
    validate_on_submit request (new_LeagueSelectForm (form request)) in
  if valid then
    let league_code := data (league form) in
    let gameweek := data (gameweek form) in
    let url := "https://api.football-data.org/v4/competitions/"
               +:+ fmt league_code +:+ "/matches?matchday=" +:+ fmt gameweek in
    let headers := [("X-Auth-Token", API_KEY)] in
    outcome <-
      try_except
        (response <- get_with_retries url headers default_max_retries ;;
         data <- lift (response_json response) ;;
         found <- lift (py_contains "matches" data) ;;
         if found : bool then
           matches_info <- lift (ms <~ py_getitem data "matches" ;;
                                 items <~ py_iter ms ;;
                                 comprehension shape_match items) ;;
           ret (JArr (JObj <$> matches_info), JNull)
         else
           ret (JNull,
                JStr "No matches found for the given league code and gameweek."))
        (λ _, true)
        (λ e, ret (JNull, JStr (str_exn e))) ;;
    let '(matches_info, error) := outcome in
    favs <- load ;;
    ret (render_template "index.html"
           [("form", PForm form); ("matches", PJson matches_info);
            ("error", PJson error); ("favorites", PJson favs)])
  else
    favs <- load ;;
    ret (render_template "index.html"
           [("form", PForm form); ("favorites", PJson favs)]).

(** [def team_details(team_id)]; the [int] converter of the route hands
    over a natural number.  The [try] block yields the pair
    [(team_info, error)]. *)
Definition team_details (team_id : nat) : M Page :=
  let url := "https://api.football-data.org/v4/teams/" +:+ pretty team_id in
  let headers := [("X-Auth-Token", API_KEY)] in
  outcome <-
    try_except
      (response <- get_with_retries url headers default_max_retries ;;
       team_info <- lift (response_json response) ;;
       ret (team_info, JNull))
      (λ _, true)
      (λ e, ret (JNull, JStr (str_exn e))) ;;
  let '(team_info, error) := outcome in
  ret (render_template "team.html"
         [("team", PJson team_info); ("error", PJson error)]).

(** ** Flask: registering and dispatching views *)

Definition View : Type := Request → M Page.

Record Rule := mkRule {
  rule : string;
  methods : list string;
  endpoint : string
}.

Record Flask := mkFlask {
  url_map : list Rule;
  view_functions : gmap string View
}.

(** [@app.route(rule, methods=...)] applied to the function [f] named
    [name]: the function is stored under its name and handed back
    unchanged. *)
Definition route (app : Flask) (rule_ : string) (methods_ : list string)
    (name : string) (f : View) : Flask * View :=
  (mkFlask (url_map app ++ [mkRule rule_ methods_ name])
           (<[name := f]> (view_functions app)),
   f).

(** [Flask.dispatch_request]: the view stored for the matching rule runs.
    (Automatic [OPTIONS] replies are left out.) *)
Definition dispatch_request (app : Flask) (request : Request) : M Page :=
  match find (λ r, bool_decide (rule r = path request)) (url_map app) with
  | None => raise (HTTPException 404 "Not Found")
  | Some r =>
      if bool_decide (method request ∈ methods r) then
        match view_functions app !! endpoint r with
        | Some f => f request
        | None => raise (KeyError (endpoint r))
        end
      else raise (HTTPException 405 "Method Not Allowed")
  end.

(** ** Flask-Caching: the [simple] cache and [cache.cached] *)

Definition pair_leb (a b : string * string) : bool :=
  String.ltb a.1 b.1 || (String.eqb a.1 b.1 && String.leb a.2 b.2).

(** The key for [query_string=True]: [request.path] and the sorted
    [request.args]. *)
Definition make_cache_key (request : Request) : CacheKey :=
  (path request, merge_sort (λ a b, Is_true (pair_leb a b)) (args request)).

(** [SimpleCache.get]: an entry past its expiry time reads as absent. *)
Definition cache_get (key : CacheKey) : M (option Page) :=
  λ w, let w' := log_event (EvCacheGet key) w in
       match cache w !! key with
       | Some (expires, value) =>
           if bool_decide (expires = 0 ∨ now w < expires) then (Ok (Some value), w')
           else (Ok None, w')
       | None => (Ok None, w')
       end.

(** [SimpleCache.set] (the pruning of a store of more than 500 entries is
    left out) *)
Definition cache_set (key : CacheKey) (value : Page) (timeout : Z) : M unit :=
  λ w, let expires := if bool_decide (0 < timeout) then now w + timeout
                      else timeout in
       (Ok tt, set_cache (<[key := (expires, value)]> (cache w))
                         (log_event (EvCacheSet key) w)).

(** [@cache.cached(timeout=..., query_string=True)] applied to [f]: a new
    function that answers from the cache and calls [f] on a miss. *)
Definition cached (timeout : Z) (f : View) : View :=
  λ request,
    let cache_key := make_cache_key request in
    rv <- cache_get cache_key ;;
    match rv with
    | Some page => ret page
    | None =>
        rv <- f request ;;
        cache_set cache_key rv timeout ;;;
        ret rv
    end.

(** ** The module, top to bottom *)

(** Decorators apply from the one nearest the [def] outwards.  The routes
    registered here are [/] and [/matches]; [/team/<id>], [/favorite] and
    [/favicon.ico] are left out. *)

(** [@app.route('/')  def index()] *)
Definition index_registered : Flask * View :=
  route (mkFlask [] ∅) "/" ["GET"; "HEAD"] "index" index.

(** [@app.route('/matches', methods=['POST'])  def matches()] *)
Definition matches_registered : Flask * View :=
  route index_registered.1 "/matches" ["POST"] "matches" matches_def.

(** [@cache.cached(timeout=300, query_string=True)] on top of it: what the
    module-level name [matches] is bound to. *)
Definition matches : View := cached 300 matches_registered.2.

(** The application object once the two routes are registered. *)
Definition app : Flask := matches_registered.1.

(** ** Serving a request *)

Record Server := mkServer {
  world : World;
  quota : Limiter.storage
}.

(** Modelled from the spec: the place of the limiter in the request path,
    which Flask-Limiter installs and the sources do not show.  For a request
    arriving at time [t] the limiter's check runs first, keyed by the
    caller's address; a denied request gets 429 and goes no further. *)
Definition serve (t : Z) (request : Request) (s : Server)
    : Result Page * Server :=
  let w := set_now t (world s) in
  let '(allowed, q) :=
    Limiter.allow default_limits (get_remote_address request) t (quota s) in
  if allowed then
    let '(r, w') := dispatch_request app request w in
    (r, mkServer w' q)
  else
    (Raise (HTTPException 429 "Too Many Requests"), mkServer w q).


End App.

(** ** Vocabulary for the statements *)

(** The URL [matches] builds for a league code and a gameweek. *)
Definition matches_url (league_code gameweek : string) : string :=
  "https://api.football-data.org/v4/competitions/"
  +:+ league_code +:+ "/matches?matchday=" +:+ gameweek.

(** The world once one more [GET] has gone out. *)
Definition attempt_made (url : string) (headers : list (string * string))
    (w : World) : World :=
  count_call (log_event (EvGet url headers) w).

(** The world once the program has slept [d] seconds. *)
Definition backed_off (d : Z) (w : World) : World :=
  advance d (log_event (EvSleep d) w).

(** The world after [k] iterations of the loop that each met a 429, the
    first of them with delay [d]. *)
Fixpoint after_429s (url : string) (headers : list (string * string))
    (k : nat) (d : Z) (w : World) : World :=
  match k with
  | O => w
  | S k' => after_429s url headers k' (d * 2) (backed_off d (attempt_made url headers w))
  end.

(** The effects of those [k] iterations. *)
Fixpoint backoff_events (url : string) (headers : list (string * string))
    (k : nat) (d : Z) : list event :=
  match k with
  | O => []
  | S k' => EvGet url headers :: EvSleep d :: backoff_events url headers k' (d * 2)
  end.

(** The next [k] calls to [url] are each answered with status 429. *)
Definition rate_limited (w : World) (url : string) (k : nat) : Prop :=
  ∀ i, (i < k)%nat →
    ∃ r, upstream w (ncalls w + i)%nat url = Replied r ∧ status_code r = 429.

(** The status is one [raise_for_status] raises for. *)
Definition error_status (r : Response) : Prop := 400 ≤ status_code r < 600.

(** The value a submitted form carries for a field. *)
Definition submitted (name : string) (request : Request) : option string :=
  head (getlist name (form request)).

Definition league_codes : list string := ["PL"; "SA"; "BL1"; "FL1"; "PD"; "EC"].

(** The request is a submission of the matches form that passes its
    validation: a listed league and a gameweek from 1 to 38. *)
Definition valid_submission (request : Request) (league_code gameweek : string)
    : Prop :=
  method request = "POST" ∧ path request = "/matches" ∧
  submitted "league" request = Some league_code ∧
  submitted "gameweek" request = Some gameweek ∧
  league_code ∈ league_codes ∧
  ∃ i : Z, 1 ≤ i ≤ 38 ∧ gameweek = pretty i.

(** The form a valid submission leaves after validation. *)
Definition validated_form (l g : string) : LeagueSelectForm :=
  mkLeagueSelectForm (mkSelectField league_choices (Some l) [])
                     (mkSelectField gameweek_choices (Some g) []).

(** The keys of the dict built for one match. *)
Definition summary_keys : gset string :=
  {[ "homeTeam"; "homeTeamId"; "awayTeam"; "awayTeamId";
     "utcDate"; "venue"; "status"; "score" ]}.

(** What the [try] block of [matches] leaves in [(matches_info, error)]
    once [get_with_retries] has returned [response]. *)
Definition shaped (response : Response) : Result (json * json) :=
  data <~ response_json response ;;
  found <~ py_contains "matches" data ;;
  if found : bool then
    matches_info <~ (ms <~ py_getitem data "matches" ;;
                     items <~ py_iter ms ;;
                     comprehension shape_match items) ;;
    Ok (JArr (JObj <$> matches_info), JNull)
  else
    Ok (JNull, JStr "No matches found for the given league code and gameweek.").

(** The same for either way the fetch can end: what a raised exception
    leaves is its text. *)
Definition fetch_outcome (fetched : Result Response) : json * json :=
  match rbind fetched shaped with
  | Ok p => p
  | Raise e => (JNull, JStr (str_exn e))
  end.

(** An upstream match of the expected shape: an object with [homeTeam] and
    [awayTeam] objects that have [name] and [id], and with [utcDate],
    [status] and [score]. *)
Definition well_formed_match (m : json) : Prop :=
  ∃ o home away,
    m = JObj o ∧
    o !! "homeTeam" = Some (JObj home) ∧
    is_Some (home !! "name") ∧ is_Some (home !! "id") ∧
    o !! "awayTeam" = Some (JObj away) ∧
    is_Some (away !! "name") ∧ is_Some (away !! "id") ∧
    is_Some (o !! "utcDate") ∧ is_Some (o !! "status") ∧ is_Some (o !! "score").

(** The dict [s] is the summary of the upstream match [m]: it has exactly
    the eight keys; [homeTeam] and [awayTeam] are the names and [homeTeamId]
    and [awayTeamId] the ids of the upstream teams; [utcDate], [status] and
    [score] are the upstream values; [venue] is the upstream value when [m]
    has the field, and the string "N/A" when it has not. *)
Definition is_summary_of (m : json) (s : gmap string json) : Prop :=
  ∃ o home away,
    m = JObj o ∧
    o !! "homeTeam" = Some (JObj home) ∧ o !! "awayTeam" = Some (JObj away) ∧
    dom s = summary_keys ∧
    s !! "homeTeam" = home !! "name" ∧ s !! "homeTeamId" = home !! "id" ∧
    s !! "awayTeam" = away !! "name" ∧ s !! "awayTeamId" = away !! "id" ∧
    s !! "utcDate" = o !! "utcDate" ∧ s !! "status" = o !! "status" ∧
    s !! "score" = o !! "score" ∧
    s !! "venue" = Some (default (JStr "N/A") (o !! "venue")) ∧
    (o !! "venue" = None → s !! "venue" = Some (JStr "N/A")).

(** A computation that neither reads nor writes the cache store: run with
    another store, it does the same and hands that store back. *)
Definition cache_blind {A} (c : M A) : Prop :=
  ∀ k w, c (set_cache k w) = ((c w).1, set_cache k (c w).2).

(** The URL [team_details] builds for a team. *)
Definition team_url (team_id : nat) : string :=
  "https://api.football-data.org/v4/teams/" +:+ pretty team_id.

(** The way a run of [get_with_retries] ended, after [k] rate-limited
    attempts: the budget ran out, or attempt [k + 1] got a response that is
    returned, an HTTP error other than 429, or no response at all. *)
Inductive fetch_end (w : World) (url : string) (max_retries k : nat)
    : Result Response → bool → Prop :=
| fetch_exhausted :
    k = max_retries →
    fetch_end w url max_retries k (Raise (PyException "Max retries exceeded")) false
| fetch_returned r :
    (k < max_retries)%nat →
    upstream w (ncalls w + k)%nat url = Replied r →
    ¬ error_status r →
    fetch_end w url max_retries k (Ok r) true
| fetch_http_error r msg :
    (k < max_retries)%nat →
    upstream w (ncalls w + k)%nat url = Replied r →
    error_status r → status_code r ≠ 429 →
    fetch_end w url max_retries k (Raise (HTTPError msg r)) true
| fetch_unreachable msg :
    (k < max_retries)%nat →
    upstream w (ncalls w + k)%nat url = Failed msg →
    fetch_end w url max_retries k (Raise (TransportError msg)) true.

(** The events of a run that slept [k] times and, if [last], sent one more
    call after the last sleep. *)
Definition fetch_events (url : string) (headers : list (string * string))
    (k : nat) (last : bool) : list event :=
  backoff_events url headers k 1 ++ (if last then [EvGet url headers] else []).

(** The world a run leaves: [k] rate-limited attempts, the first with delay
    [d], and, if [last], one more call. *)
Definition run_end (url : string) (headers : list (string * string))
    (k : nat) (d : Z) (last : bool) (w : World) : World :=
  if last then attempt_made url headers (after_429s url headers k d w)
  else after_429s url headers k d w.

(** What the [try] block of [team_details] leaves in [(team_info, error)]
    for either way the fetch can end. *)
Definition team_outcome (fetched : Result Response) : json * json :=
  match rbind fetched response_json with
  | Ok team_info => (team_info, JNull)
  | Raise e => (JNull, JStr (str_exn e))
  end.

(** The request a run of [matches] or [get_with_retries] may add to the
    trace for league [l] and gameweek number [i], or a sleep. *)
Definition matches_event (key : string) (ev : event) : Prop :=
  (∃ d, ev = EvSleep d) ∨
  ∃ l (i : Z), l ∈ league_codes ∧ 1 ≤ i ≤ 38 ∧
    ev = EvGet (matches_url l (pretty i)) [("X-Auth-Token", key)].

(** A stored favorite [add_favorite] can read: an object with an [id]. *)
Definition has_id (fav : json) : Prop :=
  ∃ o v, fav = JObj o ∧ o !! "id" = Some v.

(** The [id] of a stored favorite ([None] stands in where there is none). *)
Definition id_of (fav : json) : json :=
  match fav with
  | JObj o => default JNull (o !! "id")
  | _ => JNull
  end.

(** The entry [add_favorite] appends. *)
Definition new_favorite (team_id team_name : string) : json :=
  JObj (list_to_map [("id", JStr team_id); ("name", JStr team_name)]).

(** The team is among the stored favorites, as [add_favorite] tests it. *)
Definition is_favorite (team_id : string) (favs : list json) : bool :=
  existsb (py_eq_str team_id) (id_of <$> favs).

(** ** Concrete upstreams and requests *)

Module Examples.

Definition pl5 : string := matches_url "PL" "5".

Definition token : list (string * string) := [("X-Auth-Token", "secret")].

(** One upstream match, without a [venue] field. *)
Definition one_match : json :=
  JObj {[ "homeTeam" := JObj {[ "id" := JNum 57; "name" := JStr "Arsenal FC" ]};
          "awayTeam" := JObj {[ "id" := JNum 61; "name" := JStr "Chelsea FC" ]};
          "utcDate" := JStr "2024-09-15T13:00:00Z";
          "status" := JStr "FINISHED";
          "score" := JObj {[ "winner" := JStr "HOME_TEAM" ]} ]}.

Definition matches_field : gmap string json := {[ "matches" := JArr [one_match] ]}.

Definition r200 : Response :=
  mkResponse 200 "OK" pl5 "" (Some (JObj matches_field)) "".

Definition r429 : Response :=
  mkResponse 429 "Too Many Requests" pl5 "" None
    "Expecting value: line 1 column 1 (char 0)".

Definition r404 : Response :=
  mkResponse 404 "Not Found" pl5 "" None
    "Expecting value: line 1 column 1 (char 0)".

(** A fresh process: nothing sent, nothing cached, no favorites. *)
Definition world_with (up : nat → string → NetResult) : World :=
  mkWorld up 0 0 [] ∅ [].

Definition always_ok : nat → string → NetResult := λ _ _, Replied r200.

Definition always_limited : nat → string → NetResult := λ _ _, Replied r429.

(** 429 for the first [k] calls, 200 from then on. *)
Definition limited_first (k : nat) : nat → string → NetResult :=
  λ n _, if (n <? k)%nat then Replied r429 else Replied r200.

(** The connection is refused once, then the upstream answers 200. *)
Definition refused_first : nat → string → NetResult :=
  λ n _, match n with O => Failed "Connection refused" | S _ => Replied r200 end.

(** 404 on the first call, 200 from then on. *)
Definition not_found_first : nat → string → NetResult :=
  λ n _, match n with O => Replied r404 | S _ => Replied r200 end.

(** The matches form submitted with a league and a gameweek. *)
Definition submit (l g : string) : Request :=
  mkRequest "POST" "/matches" [] [("league", l); ("gameweek", g)] "203.0.113.7".

(** A visit of the front page. *)
Definition visit : Request := mkRequest "GET" "/" [] [] "203.0.113.7".

End Examples.

Module MoreExamples.

Import Examples.

(** A match object with nothing in it. *)
Definition empty_match : json := JObj ∅.

(** A 200 whose body is an object without a [matches] key. *)
Definition r200_no_matches : Response :=
  mkResponse 200 "OK" pl5 "" (Some (JObj ∅)) "".

(** A 200 whose list has a good match followed by an empty one. *)
Definition r200_one_bad : Response :=
  mkResponse 200 "OK" pl5 ""
    (Some (JObj {[ "matches" := JArr [one_match; empty_match] ]})) "".

Definition arsenal : json :=
  JObj {[ "id" := JNum 57; "name" := JStr "Arsenal FC"; "tla" := JStr "ARS" ]}.

(** A 200 for a team lookup. *)
Definition r200_team : Response :=
  mkResponse 200 "OK" (team_url 57) "" (Some arsenal) "".

(** A 200 whose body is cut off after the opening brace. *)
Definition r200_cut : Response :=
  mkResponse 200 "OK" (team_url 57) "{" None
    "Expecting property name enclosed in double quotes: line 1 column 2 (char 1)".

Definition always (r : Response) : nat → string → NetResult := λ _ _, Replied r.

(** The favorite form submitted for Arsenal. *)
Definition favor_arsenal : Request :=
  mkRequest "POST" "/favorite" []
    [("team_id", "57"); ("team_name", "Arsenal FC")] "203.0.113.7".

(** The same without a name. *)
Definition favor_nameless : Request :=
  mkRequest "POST" "/favorite" [] [("team_id", "57")] "203.0.113.7".

(** A world whose favorites file holds [favs]. *)
Definition world_storing (favs : list json) : World :=
  mkWorld always_ok 0 0 [] ∅ favs.

Definition chelsea_fav : json := new_favorite "61" "Chelsea FC".

End MoreExamples.


Module QuotaExamples.

Import Examples.






End QuotaExamples.

(** ** The retry loop, one iteration at a time *)

Lemma raise_for_status_ok (r : Response) :
  ¬ error_status r → raise_for_status r = Ok tt.
Proof.
  unfold error_status, raise_for_status. intros H.
  repeat case_bool_decide; auto; lia.
Qed.

Lemma raise_for_status_error (r : Response) :
  error_status r → ∃ msg, raise_for_status r = Raise (HTTPError msg r).
Proof.
  unfold error_status, raise_for_status. intros H.
  repeat case_bool_decide; eauto; lia.
Qed.

Lemma raise_for_status_inv (r : Response) :
  raise_for_status r = Ok tt → ¬ error_status r.
Proof.
  unfold error_status, raise_for_status.
  repeat case_bool_decide; try discriminate. intros _. lia.
Qed.

Section RetryLoop.

Variables (url : string) (headers : list (string * string)).

Lemma retry_loop_success (n : nat) (d : Z) (w : World) (r : Response) :
  upstream w (ncalls w) url = Replied r →
  ¬ error_status r →
  retry_loop url headers (S n) d w = (Ok r, attempt_made url headers w).
Proof.
  intros Hup Hok. cbn [retry_loop]. unfold try_except, bind, requests_get, lift, ret.
  rewrite Hup, (raise_for_status_ok r Hok). reflexivity.
Qed.

Lemma retry_loop_429 (n : nat) (d : Z) (w : World) (r : Response) :
  upstream w (ncalls w) url = Replied r →
  status_code r = 429 →
  retry_loop url headers (S n) d w =
  retry_loop url headers n (d * 2) (backed_off d (attempt_made url headers w)).
Proof.
  intros Hup H429. cbn [retry_loop]. unfold try_except at 1, bind at 1 2, requests_get, lift.
  rewrite Hup.
  destruct (raise_for_status_error r) as [msg Hmsg]; [unfold error_status; lia |].
  rewrite Hmsg. cbn [is_HTTPError]. rewrite bool_decide_eq_true_2 by done.
  reflexivity.
Qed.

Lemma retry_loop_http_error (n : nat) (d : Z) (w : World) (r : Response) :
  upstream w (ncalls w) url = Replied r →
  error_status r →
  status_code r ≠ 429 →
  ∃ msg, retry_loop url headers (S n) d w =
         (Raise (HTTPError msg r), attempt_made url headers w).
Proof.
  intros Hup Herr Hne. cbn [retry_loop].
  unfold try_except at 1, bind at 1 2, requests_get, lift.
  rewrite Hup. destruct (raise_for_status_error r Herr) as [msg Hmsg].
  exists msg. rewrite Hmsg. cbn [is_HTTPError].
  rewrite bool_decide_eq_false_2 by done. reflexivity.
Qed.

Lemma retry_loop_transport (n : nat) (d : Z) (w : World) (msg : string) :
  upstream w (ncalls w) url = Failed msg →
  retry_loop url headers (S n) d w =
  (Raise (TransportError msg), attempt_made url headers w).
Proof.
  intros Hup. cbn [retry_loop]. unfold try_except, bind, requests_get.
  rewrite Hup. reflexivity.
Qed.

Lemma upstream_after_429s (k : nat) (d : Z) (w : World) :
  upstream (after_429s url headers k d w) = upstream w.
Proof. revert d w. induction k as [|k IH]; intros d w; [done|]. cbn. by rewrite IH. Qed.

Lemma ncalls_after_429s (k : nat) (d : Z) (w : World) :
  ncalls (after_429s url headers k d w) = (ncalls w + k)%nat.
Proof.
  revert d w. induction k as [|k IH]; intros d w; cbn; [lia|].
  rewrite IH. cbn. lia.
Qed.

Lemma cache_after_429s (k : nat) (d : Z) (w : World) :
  cache (after_429s url headers k d w) = cache w.
Proof. revert d w. induction k as [|k IH]; intros d w; [done|]. cbn. by rewrite IH. Qed.

Lemma trace_after_429s (k : nat) (d : Z) (w : World) :
  trace (after_429s url headers k d w) = trace w ++ backoff_events url headers k d.
Proof.
  revert d w. induction k as [|k IH]; intros d w; cbn.
  - by rewrite app_nil_r.
  - rewrite IH. cbn. by rewrite <- !app_assoc.
Qed.

Lemma rate_limited_tail (k : nat) (d : Z) (w : World) :
  rate_limited w url (S k) →
  rate_limited (backed_off d (attempt_made url headers w)) url k.
Proof.
  intros H i Hi. destruct (H (S i)) as (r & Hr & H429); [lia|].
  exists r. split; [|done]. cbn. by replace (S (ncalls w + i)) with (ncalls w + S i)%nat by lia.
Qed.

Lemma rate_limited_head (k : nat) (w : World) :
  rate_limited w url (S k) →
  ∃ r, upstream w (ncalls w) url = Replied r ∧ status_code r = 429.
Proof.
  intros H. destruct (H O) as (r & Hr & H429); [lia|].
  exists r. by rewrite Nat.add_0_r in Hr.
Qed.

(** [k] rate-limited iterations leave the loop with [n] iterations to go
    and the delay doubled [k] times. *)
Lemma retry_loop_429s (k n : nat) (d : Z) (w : World) :
  rate_limited w url k →
  retry_loop url headers (k + n) d w =
  retry_loop url headers n (d * 2 ^ Z.of_nat k) (after_429s url headers k d w).
Proof.
  revert d w. induction k as [|k IH]; intros d w Hk.
  - cbn. by rewrite Z.mul_1_r.
  - destruct (rate_limited_head _ _ Hk) as (r & Hr & H429).
    replace (S k + n)%nat with (S (k + n)) by lia.
    rewrite (retry_loop_429 _ _ _ r Hr H429).
    rewrite IH by (by apply rate_limited_tail).
    cbn [after_429s]. f_equal.
    rewrite Nat2Z.inj_succ, Z.pow_succ_r by lia. lia.
Qed.

(** A normal return carries a response [raise_for_status] accepted. *)
Lemma retry_loop_returns_ok (n : nat) (d : Z) (w w' : World) (r : Response) :
  retry_loop url headers n d w = (Ok r, w') → ¬ error_status r.
Proof.
  revert d w. induction n as [|n IH]; intros d w; cbn [retry_loop].
  - unfold raise. discriminate.
  - unfold try_except at 1, bind at 1 2, requests_get, lift, ret.
    destruct (upstream w (ncalls w) url) as [r0|msg]; [|discriminate].
    destruct (raise_for_status r0) as [[]|e] eqn:Hs.
    + intros [= <- <-]. by apply raise_for_status_inv.
    + unfold raise_for_status in Hs.
      repeat case_bool_decide; try discriminate;
        injection Hs as <-; cbn [is_HTTPError];
        (case_bool_decide; [|unfold raise; discriminate]);
        unfold bind at 1, sleep; apply IH.
Qed.

(** With at least one iteration to run, at least one call goes out. *)
Lemma retry_loop_calls (n : nat) (d : Z) (w : World) :
  (ncalls w < ncalls (retry_loop url headers (S n) d w).2)%nat.
Proof.
  revert d w. induction n as [|n IH]; intros d w.
  - cbn [retry_loop]. unfold try_except at 1, bind at 1 2, requests_get, lift, ret.
    destruct (upstream w (ncalls w) url) as [r0|msg]; [|cbn; lia].
    destruct (raise_for_status r0) as [[]|e] eqn:Hs; [cbn; lia|].
    unfold raise_for_status in Hs.
    repeat case_bool_decide; try discriminate;
      injection Hs as <-; cbn [is_HTTPError];
      (case_bool_decide; cbn; lia).
  - remember (S n) as m. cbn [retry_loop].
    unfold try_except at 1, bind at 1 2, requests_get, lift, ret.
    destruct (upstream w (ncalls w) url) as [r0|msg]; [|cbn; lia].
    destruct (raise_for_status r0) as [[]|e] eqn:Hs; [cbn; lia|].
    unfold raise_for_status in Hs.
    repeat case_bool_decide; try discriminate;
      injection Hs as <-; cbn [is_HTTPError];
      (case_bool_decide; [|cbn; lia]);
      unfold bind at 1, sleep; subst m;
      (etrans; [|apply IH]); cbn; lia.
Qed.

End RetryLoop.

(** ** [get_with_retries]: what each kind of upstream answer leads to *)

Lemma get_with_retries_split (url : string) (headers : list (string * string))
    (k n : nat) (w : World) :
  rate_limited w url k →
  get_with_retries url headers (k + n) w =
  retry_loop url headers n (2 ^ Z.of_nat k) (after_429s url headers k 1 w).
Proof.
  intros Hk. unfold get_with_retries. rewrite retry_loop_429s by done.
  by rewrite Z.mul_1_l.
Qed.

Lemma attempt_after_429s (url : string) (headers : list (string * string))
    (k : nat) (w : World) :
  ncalls (attempt_made url headers (after_429s url headers k 1 w))
    = (ncalls w + k + 1)%nat ∧
  trace (attempt_made url headers (after_429s url headers k 1 w))
    = trace w ++ backoff_events url headers k 1 ++ [EvGet url headers] ∧
  cache (attempt_made url headers (after_429s url headers k 1 w)) = cache w.
Proof.
  cbn. rewrite ncalls_after_429s, trace_after_429s, cache_after_429s.
  split_and!; [lia | by rewrite app_assoc | done].
Qed.

(** C10: whenever [get_with_retries] returns normally, the response it
    returns is one on which [raise_for_status] did not raise: its status is
    not an error status (not in 400..599). *)
Theorem get_with_retries_returns_only_success (url : string)
    (headers : list (string * string)) (max_retries : nat) (w w' : World)
    (r : Response) :
  get_with_retries url headers max_retries w = (Ok r, w') →
  raise_for_status r = Ok tt ∧ ¬ error_status r.
Proof.
  intros H. apply retry_loop_returns_ok in H.
  split; [by apply raise_for_status_ok | done].
Qed.

(** C7: when an attempt is answered with an HTTP error status other than
    429 (the attempts before it, if any, having met 429), the fetch fails on
    that attempt with the [HTTPError] that carries the upstream response
    (status and body), and no further call goes out. *)
Theorem non_429_error_fails_immediately (url : string)
    (headers : list (string * string)) (max_retries k : nat) (w : World)
    (r : Response) :
  (k < max_retries)%nat →
  rate_limited w url k →
  upstream w (ncalls w + k)%nat url = Replied r →
  error_status r →
  status_code r ≠ 429 →
  ∃ msg w',
    get_with_retries url headers max_retries w = (Raise (HTTPError msg r), w') ∧
    ncalls w' = (ncalls w + k + 1)%nat ∧
    trace w' = trace w ++ backoff_events url headers k 1 ++ [EvGet url headers].
Proof.
  intros Hlt Hk Hup Herr Hne.
  replace max_retries with (k + S (max_retries - k - 1))%nat by lia.
  rewrite get_with_retries_split by done.
  destruct (retry_loop_http_error url headers (max_retries - k - 1)
              (2 ^ Z.of_nat k) (after_429s url headers k 1 w) r) as [msg Hmsg];
    [by rewrite upstream_after_429s, ncalls_after_429s | done | done |].
  exists msg, (attempt_made url headers (after_429s url headers k 1 w)).
  split; [done|]. destruct (attempt_after_429s url headers k w) as (? & ? & _). done.
Qed.

(** C3, as the code has it: a failure below HTTP (connection refused,
    timeout) is not caught by the loop; the exception leaves
    [get_with_retries] on the attempt that met it, and no further call goes
    out. *)
Theorem transport_failure_is_not_retried (url : string)
    (headers : list (string * string)) (max_retries k : nat) (w : World)
    (msg : string) :
  (k < max_retries)%nat →
  rate_limited w url k →
  upstream w (ncalls w + k)%nat url = Failed msg →
  ∃ w',
    get_with_retries url headers max_retries w = (Raise (TransportError msg), w') ∧
    ncalls w' = (ncalls w + k + 1)%nat ∧
    trace w' = trace w ++ backoff_events url headers k 1 ++ [EvGet url headers].
Proof.
  intros Hlt Hk Hup.
  replace max_retries with (k + S (max_retries - k - 1))%nat by lia.
  rewrite get_with_retries_split by done.
  rewrite (retry_loop_transport url headers _ _ _ msg)
    by (by rewrite upstream_after_429s, ncalls_after_429s).
  eexists. split; [done|].
  destruct (attempt_after_429s url headers k w) as (? & ? & _). done.
Qed.

(** C2, as the code has it: when the upstream answers 429 on [k] consecutive
    attempts, [k] below the attempt budget [max_retries] (3 by default, so
    at most twice), and then succeeds, exactly [k + 1] calls go out, the
    program sleeps 1, 2, ... seconds between them (doubling), and the
    successful response is returned. *)
Theorem rate_limited_then_success (url : string)
    (headers : list (string * string)) (max_retries k : nat) (w : World)
    (r : Response) :
  (k < max_retries)%nat →
  rate_limited w url k →
  upstream w (ncalls w + k)%nat url = Replied r →
  ¬ error_status r →
  ∃ w',
    get_with_retries url headers max_retries w = (Ok r, w') ∧
    ncalls w' = (ncalls w + k + 1)%nat ∧
    trace w' = trace w ++ backoff_events url headers k 1 ++ [EvGet url headers].
Proof.
  intros Hlt Hk Hup Hok.
  replace max_retries with (k + S (max_retries - k - 1))%nat by lia.
  rewrite get_with_retries_split by done.
  rewrite (retry_loop_success url headers _ _ _ r)
    by (by rewrite ?upstream_after_429s, ?ncalls_after_429s).
  eexists. split; [done|].
  destruct (attempt_after_429s url headers k w) as (? & ? & _). done.
Qed.

(** When every attempt of the budget meets a 429, the loop runs out and the
    final [raise] is reached. *)
Lemma get_with_retries_exhausted (url : string)
    (headers : list (string * string)) (max_retries : nat) (w : World) :
  rate_limited w url max_retries →
  get_with_retries url headers max_retries w =
  (Raise (PyException "Max retries exceeded"),
   after_429s url headers max_retries 1 w).
Proof.
  intros Hk. rewrite <- (Nat.add_0_r max_retries) at 1.
  by rewrite get_with_retries_split.
Qed.

(** ** Form validation *)

Lemma existsb_choice (chs : list (string * string)) (d : option string) :
  existsb (λ c, bool_decide (Some c.1 = d)) chs = true ↔ d ∈ Some <$> chs.*1.
Proof.
  rewrite existsb_exists. split.
  - intros (c & Hin & Hc). apply bool_decide_eq_true in Hc. subst d.
    apply list_elem_of_fmap. exists c.1. split; [done|].
    apply list_elem_of_fmap. exists c. split; [done|]. by apply list_elem_of_In.
  - intros (x & -> & (c & -> & Hin)%list_elem_of_fmap)%list_elem_of_fmap.
    exists c. split; [by apply list_elem_of_In | by apply bool_decide_eq_true].
Qed.

Lemma league_choice_values : league_choices.*1 = league_codes.
Proof. reflexivity. Qed.

Lemma gameweek_choice_values (g : string) :
  g ∈ gameweek_choices.*1 ↔ ∃ i : Z, 1 ≤ i ≤ 38 ∧ g = pretty i.
Proof.
  unfold gameweek_choices. rewrite <- list_fmap_compose.
  rewrite list_elem_of_fmap. split.
  - intros (i & -> & Hi%elem_of_seqZ). exists i. split; [lia | done].
  - intros (i & Hi & ->). exists i. split; [done|]. apply elem_of_seqZ. lia.
Qed.

Lemma choices_not_blank (x : string) :
  x ∈ league_choices.*1 ++ gameweek_choices.*1 →
  forallb is_space (String.list_ascii_of_string x) = false.
Proof.
  intros Hx.
  assert (Hall : forallb (λ s, negb (forallb is_space (String.list_ascii_of_string s)))
                   (league_choices.*1 ++ gameweek_choices.*1) = true)
    by (vm_compute; reflexivity).
  rewrite forallb_forall in Hall. apply list_elem_of_In, Hall in Hx.
  by apply negb_true_iff.
Qed.

(** A field whose data is one of its choices validates without errors. *)
Lemma validate_field_valid (chs : list (string * string)) (x : string) :
  x ∈ chs.*1 →
  forallb is_space (String.list_ascii_of_string x) = false →
  validate_field (mkSelectField chs (Some x) []) = mkSelectField chs (Some x) [].
Proof.
  intros Hx Hnb. unfold validate_field, DataRequired, pre_validate. cbn.
  rewrite Hnb. cbn.
  assert (He : existsb (λ c, bool_decide (Some c.1 = Some x)) chs = true).
  { apply existsb_choice. apply list_elem_of_fmap. eauto. }
  by rewrite He.
Qed.

(** A field whose data is none of its choices ends up with an error. *)
Lemma validate_field_invalid (f : SelectField) :
  data f ∉ Some <$> (choices f).*1 → errors (validate_field f) ≠ [].
Proof.
  intros Hd. unfold validate_field. cbn.
  destruct (DataRequired f); [|done].
  unfold pre_validate.
  destruct (existsb _ _) eqn:He; [|done].
  by apply existsb_choice in He.
Qed.

Lemma is_submitted_POST (request : Request) :
  method request = "POST" → is_submitted request = true.
Proof.
  intros H. unfold is_submitted. rewrite H. apply bool_decide_eq_true, list_elem_of_here.
Qed.

Lemma validate_valid (request : Request) (l g : string) :
  valid_submission request l g →
  validate_on_submit request (new_LeagueSelectForm (form request)) =
  (mkLeagueSelectForm (mkSelectField league_choices (Some l) [])
                      (mkSelectField gameweek_choices (Some g) []), true).
Proof.
  intros (Hm & _ & Hl & Hg & Hlc & Hgc).
  unfold validate_on_submit. rewrite (is_submitted_POST _ Hm).
  unfold new_LeagueSelectForm, process. cbn [league gameweek].
  unfold submitted in Hl, Hg. rewrite Hl, Hg.
  apply gameweek_choice_values in Hgc. rewrite <- league_choice_values in Hlc.
  rewrite !validate_field_valid;
    [done | done | | done |]; apply choices_not_blank, elem_of_app; auto.
Qed.

(** A submission with a league outside the list, or a gameweek that is not
    an integer from 1 to 38, fails validation and leaves an error on the
    form. *)
Lemma validate_invalid (request : Request) :
  method request = "POST" →
  (∀ l, l ∈ league_codes → submitted "league" request ≠ Some l) ∨
  (∀ i : Z, 1 ≤ i ≤ 38 → submitted "gameweek" request ≠ Some (pretty i)) →
  ∃ f, validate_on_submit request (new_LeagueSelectForm (form request)) = (f, false) ∧
       (errors (league f) ≠ [] ∨ errors (gameweek f) ≠ []).
Proof.
  intros Hm Hbad. unfold validate_on_submit. rewrite (is_submitted_POST _ Hm).
  assert (Herr : errors (validate_field (league (new_LeagueSelectForm (form request)))) ≠ []
               ∨ errors (validate_field (gameweek (new_LeagueSelectForm (form request)))) ≠ []).
  { destruct Hbad as [Hl|Hg]; [left|right]; apply validate_field_invalid;
      unfold new_LeagueSelectForm, process; cbn [league gameweek choices data].
    - intros (l & Hl' & Hin)%list_elem_of_fmap.
      rewrite league_choice_values in Hin. by eapply Hl.
    - intros (g & Hg' & (i & Hi & ->)%gameweek_choice_values)%list_elem_of_fmap.
      by eapply Hg. }
  eexists. split; [f_equal | exact Herr].
  destruct Herr as [H|H]; apply andb_false_iff; [left|right];
    by apply bool_decide_eq_false_2.
Qed.

(** ** Which function a request reaches *)

(** A [POST] to [/matches] runs the function [app.route] was given: the
    undecorated body, not the cached wrapper bound to the name [matches]. *)
Lemma dispatch_matches (key : string) (request : Request) (w : World) :
  path request = "/matches" → method request = "POST" →
  dispatch_request (app key) request w = matches_def key request w.
Proof.
  intros Hp Hm. unfold dispatch_request, app, matches_registered, index_registered, route.
  rewrite Hp, Hm. reflexivity.
Qed.

(** Whatever the request, dispatch ends in one of four ways. *)
Lemma dispatch_cases (key : string) (request : Request) (w : World) :
  dispatch_request (app key) request w = matches_def key request w ∨
  dispatch_request (app key) request w = index request w ∨
  ∃ e, dispatch_request (app key) request w = (Raise e, w).
Proof.
  unfold dispatch_request, app, matches_registered, index_registered, route.
  cbn [url_map view_functions fst snd List.app find rule].
  repeat (case_bool_decide; cbn [find rule methods endpoint]);
    first [ right; right; eexists; reflexivity
          | right; left; reflexivity
          | left; reflexivity ].
Qed.

(** ** The [matches] view *)

(** For a valid submission the view is one fetch followed by rendering. *)
Lemma matches_def_valid (key : string) (request : Request) (l g : string)
    (w : World) :
  valid_submission request l g →
  matches_def key request w =
  let fetched := get_with_retries (matches_url l g) [("X-Auth-Token", key)]
                   default_max_retries w in
  (Ok (render_template "index.html"
         [("form", PForm (validated_form l g));
          ("matches", PJson (fetch_outcome fetched.1).1);
          ("error", PJson (fetch_outcome fetched.1).2);
          ("favorites", PJson (JArr (favorites fetched.2)))]),
   fetched.2).
Proof.
  intros Hv. unfold matches_def. rewrite (validate_valid request l g Hv).
  cbn [data league gameweek fmt default]. fold (matches_url l g).
  cbv zeta. unfold bind at 1. unfold try_except. unfold bind at 1.
  destruct (get_with_retries _ _ _ w) as [[r|e] w1]; [|reflexivity].
  unfold fetch_outcome, shaped, bind, lift, ret, load_favorites.
  cbn [rbind fst snd].
  destruct (response_json r) as [d|e]; [|reflexivity]. cbn [rbind].
  destruct (py_contains "matches" d) as [[|]|e]; [|reflexivity|reflexivity].
  cbn [rbind].
  destruct (py_getitem d "matches") as [ms|e]; [|reflexivity]. cbn [rbind].
  destruct (py_iter ms) as [items|e]; [|reflexivity]. cbn [rbind].
  destruct (comprehension shape_match items) as [ss|e]; reflexivity.
Qed.

(** A submission that fails validation renders the form with its errors;
    the world is left as it was. *)
Lemma matches_def_invalid (key : string) (request : Request) (w : World) :
  method request = "POST" →
  (∀ l, l ∈ league_codes → submitted "league" request ≠ Some l) ∨
  (∀ i : Z, 1 ≤ i ≤ 38 → submitted "gameweek" request ≠ Some (pretty i)) →
  ∃ f, matches_def key request w =
       (Ok (render_template "index.html"
              [("form", PForm f); ("favorites", PJson (JArr (favorites w)))]), w) ∧
       (errors (league f) ≠ [] ∨ errors (gameweek f) ≠ []).
Proof.
  intros Hm Hbad. destruct (validate_invalid request Hm Hbad) as (f & Hf & Herr).
  exists f. split; [|done]. unfold matches_def. by rewrite Hf.
Qed.

(** C6: a submission to [/matches] whose league is not one of PL, SA, BL1,
    FL1, PD, EC, or whose gameweek is not an integer from 1 to 38, fails
    validation: the page rendered carries the form with its validation
    errors, and the world is exactly as before: no upstream call went out
    and the cache was neither read nor written. *)
Theorem invalid_submission_contacts_nothing (key : string) (request : Request)
    (w : World) :
  path request = "/matches" →
  method request = "POST" →
  (∀ l, l ∈ league_codes → submitted "league" request ≠ Some l) ∨
  (∀ i : Z, 1 ≤ i ≤ 38 → submitted "gameweek" request ≠ Some (pretty i)) →
  ∃ f, dispatch_request (app key) request w =
       (Ok (render_template "index.html"
              [("form", PForm f); ("favorites", PJson (JArr (favorites w)))]), w) ∧
       (errors (league f) ≠ [] ∨ errors (gameweek f) ≠ []).
Proof.
  intros Hp Hm Hbad. rewrite dispatch_matches by done.
  by apply matches_def_invalid.
Qed.

(** ** The request quota *)










(** *** Counters, caps and callers *)

















(** ** The cache store is out of the request path *)

(** The function stored for the endpoint is the body of [matches] itself:
    [cache.cached] was applied to what [app.route] handed back, after the
    registration, and its wrapper is known to the module only. *)
Lemma registered_view_is_undecorated (key : string) :
  view_functions (app key) !! "matches" = Some (matches_def key).
Proof. reflexivity. Qed.

Create HintDb cache_blind.

Lemma cache_blind_ret {A} (a : A) : cache_blind (ret a).
Proof. done. Qed.

Lemma cache_blind_raise {A} (e : exn) : cache_blind (raise (A:=A) e).
Proof. done. Qed.

Lemma cache_blind_lift {A} (r : Result A) : cache_blind (lift r).
Proof. done. Qed.

Lemma cache_blind_bind {A B} (c : M A) (f : A → M B) :
  cache_blind c → (∀ a, cache_blind (f a)) → cache_blind (bind c f).
Proof.
  intros Hc Hf k w. unfold bind. rewrite Hc.
  destruct (c w) as [[a|e] w']; cbn [fst snd]; [apply Hf | done].
Qed.

Lemma cache_blind_try_except {A} (body : M A) (handles : exn → bool)
    (handler : exn → M A) :
  cache_blind body → (∀ e, cache_blind (handler e)) →
  cache_blind (try_except body handles handler).
Proof.
  intros Hb Hh k w. unfold try_except. rewrite Hb.
  destruct (body w) as [[a|e] w']; cbn [fst snd]; [done|].
  destruct (handles e); [apply Hh | done].
Qed.

Lemma cache_blind_requests_get (url : string) (headers : list (string * string)) :
  cache_blind (requests_get url headers).
Proof.
  intros k w. unfold requests_get. cbn [upstream ncalls set_cache].
  by destruct (upstream w (ncalls w) url).
Qed.

Lemma cache_blind_sleep (secs : Z) : cache_blind (sleep secs).
Proof. done. Qed.

Lemma cache_blind_load_favorites : cache_blind load_favorites.
Proof. done. Qed.

#[local] Hint Resolve cache_blind_ret cache_blind_raise cache_blind_lift
  cache_blind_bind cache_blind_try_except cache_blind_requests_get
  cache_blind_sleep cache_blind_load_favorites : cache_blind.

Lemma cache_blind_retry_loop (url : string) (headers : list (string * string))
    (n : nat) (d : Z) :
  cache_blind (retry_loop url headers n d).
Proof.
  revert d. induction n as [|n IH]; intros d; cbn [retry_loop];
    [auto with cache_blind|].
  apply cache_blind_try_except; [auto 6 with cache_blind|].
  intros [msg response| | | | | | |]; auto with cache_blind.
  case_bool_decide; auto with cache_blind.
Qed.

Lemma cache_blind_matches_def (key : string) (request : Request) :
  cache_blind (matches_def key request).
Proof.
  unfold matches_def.
  destruct (validate_on_submit _ _) as [f [|]]; [|auto with cache_blind].
  apply cache_blind_bind; [|intros [? ?]; auto with cache_blind].
  apply cache_blind_try_except; [|auto with cache_blind].
  apply cache_blind_bind; [apply cache_blind_retry_loop|]. intros response.
  apply cache_blind_bind; [auto with cache_blind|]. intros data.
  apply cache_blind_bind; [auto with cache_blind|]. intros [|];
    auto with cache_blind.
Qed.

Lemma cache_blind_index (request : Request) : cache_blind (index request).
Proof. unfold index. auto with cache_blind. Qed.

Lemma cache_blind_dispatch (key : string) (request : Request) :
  cache_blind (dispatch_request (app key) request).
Proof.
  unfold dispatch_request, app, matches_registered, index_registered, route.
  cbn [url_map view_functions fst snd List.app find rule].
  repeat (case_bool_decide; cbn [find rule methods endpoint]);
    first [ apply cache_blind_raise
          | apply cache_blind_index
          | apply cache_blind_matches_def ].
Qed.

(** What is blind to the store hands it back as it got it. *)
Lemma cache_blind_preserves {A} (c : M A) (w : World) :
  cache_blind c → cache (c w).2 = cache w.
Proof.
  intros Hc. pose proof (Hc (cache w) w) as E.
  replace (set_cache (cache w) w) with w in E by (by destruct w).
  by rewrite (f_equal (λ p, cache p.2) E).
Qed.

Lemma serve_cache (key : string) (t : Z) (request : Request) (s : Server) :
  cache (world (serve key t request s).2) = cache (world s).
Proof.
  unfold serve. destruct (Limiter.allow _ _ _ _) as [[|] q]; [|done].
  pose proof (cache_blind_preserves _ (set_now t (world s))
                (cache_blind_dispatch key request)) as Hc.
  by destruct (dispatch_request _ _ _) as [r w'].
Qed.

Lemma dispatch_valid_calls (key : string) (request : Request) (l g : string)
    (w : World) :
  valid_submission request l g →
  (ncalls w < ncalls (dispatch_request (app key) request w).2)%nat.
Proof.
  intros Hv. pose proof Hv as (Hm & Hp & _).
  rewrite dispatch_matches by done.
  rewrite (matches_def_valid key request l g w Hv). cbn [snd].
  apply retry_loop_calls.
Qed.

(** C5: no request ever creates or updates a cache entry, whichever way it
    ends (validation failure, HTTP error, transport failure, exhausted
    retries, denial by the limiter, or success), and what a request gets
    never depends on the content of the cache; so no failure is ever
    cached, and an identical valid lookup made afterwards, at any time,
    sends at least one call upstream again. *)
Theorem no_failure_is_cached (key : string) :
  (∀ t request s, cache (world (serve key t request s).2) = cache (world s)) ∧
  (∀ request w c,
     (dispatch_request (app key) request (set_cache c w)).1 =
     (dispatch_request (app key) request w).1) ∧
  (∀ request l g w t,
     valid_submission request l g →
     let w1 := (dispatch_request (app key) request w).2 in
     (ncalls w1 < ncalls (dispatch_request (app key) request (set_now t w1)).2)%nat).
Proof.
  split_and!.
  - apply serve_cache.
  - intros request w c. by rewrite (cache_blind_dispatch key request c w).
  - intros request l g w t Hv w1.
    exact (dispatch_valid_calls key request l g (set_now t w1) Hv).
Qed.

(** C4, as the code has it: when all attempts of the budget met a 429,
    [get_with_retries] raises a plain [Exception] with the text "Max retries
    exceeded", which is neither the [HTTPError] of a non-429 answer nor a
    transport exception; [matches] catches it like any other exception and
    returns normally a page whose [error] is that text and whose [matches]
    is [None]. *)
Theorem exhausted_retries_reach_the_page_as_text (key : string)
    (request : Request) (l g : string) (w : World) :
  valid_submission request l g →
  rate_limited w (matches_url l g) default_max_retries →
  (∃ w', get_with_retries (matches_url l g) [("X-Auth-Token", key)]
           default_max_retries w
         = (Raise (PyException "Max retries exceeded"), w') ∧
         ncalls w' = (ncalls w + default_max_retries)%nat) ∧
  (∀ msg r, PyException "Max retries exceeded" ≠ HTTPError msg r) ∧
  (∀ msg, PyException "Max retries exceeded" ≠ TransportError msg) ∧
  ∃ page w',
    dispatch_request (app key) request w = (Ok page, w') ∧
    context page !! "matches" = Some (PJson JNull) ∧
    context page !! "error" = Some (PJson (JStr "Max retries exceeded")).
Proof.
  intros Hv Hk. pose proof Hv as (Hm & Hp & _).
  pose proof (get_with_retries_exhausted (matches_url l g) [("X-Auth-Token", key)]
                default_max_retries w Hk) as Hget.
  split_and!.
  - eexists. split; [exact Hget|]. apply ncalls_after_429s.
  - discriminate.
  - discriminate.
  - rewrite dispatch_matches by done.
    rewrite (matches_def_valid key request l g w Hv), Hget.
    do 2 eexists. split; [reflexivity|]. split; reflexivity.
Qed.

(** ** Reshaping the upstream matches *)

Lemma shape_match_well_formed (m : json) :
  well_formed_match m → ∃ s, shape_match m = Ok s ∧ is_summary_of m s.
Proof.
  intros (o & home & away & -> & Hh & [hn Hhn] & [hi Hhi] & Ha & [an Han]
            & [ai Hai] & [u Hu] & [st Hst] & [sc Hsc]).
  unfold shape_match.
  do 3 (cbn [rbind py_getitem py_get];
        rewrite ?Hh, ?Ha, ?Hhn, ?Hhi, ?Han, ?Hai, ?Hu, ?Hst, ?Hsc).
  cbn [rbind py_getitem py_get].
  eexists. split; [reflexivity|].
  exists o, home, away.
  split_and!; rewrite ?Hhn, ?Hhi, ?Han, ?Hai, ?Hu, ?Hst, ?Hsc; try reflexivity;
    try assumption.
  intros Hv. rewrite Hv. reflexivity.
Qed.

Lemma comprehension_well_formed (ms : list json) :
  Forall well_formed_match ms →
  ∃ ss, comprehension shape_match ms = Ok ss ∧ Forall2 is_summary_of ms ss.
Proof.
  induction 1 as [|m ms Hm _ (ss & Hss & Hall)].
  - exists []. split; [reflexivity | constructor].
  - destruct (shape_match_well_formed m Hm) as (s & Hs & Hsum).
    exists (s :: ss). split; [|by constructor].
    cbn [comprehension]. by rewrite Hs, Hss.
Qed.

(** C8: when the fetch succeeds (on the first attempt or after retries)
    and the upstream body has the expected shape, the page shows no error
    and lists one dict per upstream match, in order; each dict has exactly
    the keys homeTeam, homeTeamId, awayTeam, awayTeamId, utcDate, venue,
    status and score, carrying the names and ids of the two teams and the
    upstream date, status and score; the venue is the upstream one when the
    match has the field, and the string "N/A" when it has not. *)
Theorem matches_are_reshaped (key : string) (request : Request) (l g : string)
    (w w1 : World) (r : Response) (d : gmap string json) (ms : list json) :
  valid_submission request l g →
  get_with_retries (matches_url l g) [("X-Auth-Token", key)]
    default_max_retries w = (Ok r, w1) →
  json_ r = Some (JObj d) →
  d !! "matches" = Some (JArr ms) →
  Forall well_formed_match ms →
  ∃ page summaries,
    dispatch_request (app key) request w = (Ok page, w1) ∧
    context page !! "matches" = Some (PJson (JArr (JObj <$> summaries))) ∧
    context page !! "error" = Some (PJson JNull) ∧
    Forall2 is_summary_of ms summaries.
Proof.
  intros Hv Hget Hj Hd Hms. pose proof Hv as (Hm & Hp & _).
  destruct (comprehension_well_formed ms Hms) as (ss & Hss & Hall).
  rewrite dispatch_matches by done.
  rewrite (matches_def_valid key request l g w Hv), Hget.
  exists (render_template "index.html"
            [("form", PForm (validated_form l g));
             ("matches", PJson (JArr (JObj <$> ss))); ("error", PJson JNull);
             ("favorites", PJson (JArr (favorites w1)))]), ss.
  split; [|split_and!; [reflexivity | reflexivity | done]].
  cbv zeta. cbn [fst snd]. unfold fetch_outcome. cbn [rbind].
  unfold shaped, response_json. rewrite Hj. cbn [rbind py_contains py_getitem]. rewrite Hd.
  cbn [rbind py_iter]. rewrite Hss. reflexivity.
Qed.

(** ** Concrete runs *)

Import Examples.

Lemma submit_valid : valid_submission (submit "PL" "5") "PL" "5".
Proof.
  split_and!; try reflexivity; [apply list_elem_of_here|].
  exists 5. split; [lia | reflexivity].
Qed.

Lemma limited_first_rate_limited (k : nat) :
  rate_limited (world_with (limited_first k)) pl5 k.
Proof.
  intros i Hi. exists r429. split; [|reflexivity].
  cbn. unfold limited_first. by rewrite (proj2 (Nat.ltb_lt i k) Hi).
Qed.

Lemma rate_limited_zero (w : World) (url : string) : rate_limited w url 0.
Proof. intros i Hi. lia. Qed.

Lemma always_limited_rate_limited (k : nat) :
  rate_limited (world_with always_limited) pl5 k.
Proof. intros i Hi. exists r429. split; reflexivity. Qed.

(** Called directly, the wrapper bound to the name [matches] does answer
    from the cache: a second call within 300 seconds sends nothing upstream.
    Its key being the path and the query string, it even answers another
    league and gameweek with the page stored for the first. *)
Lemma wrapper_would_answer_from_cache :
  let first := matches "secret" (submit "PL" "5") (world_with always_ok) in
  let second := matches "secret" (submit "SA" "7") (set_now 10 first.2) in
  ncalls first.2 = 1%nat ∧ ncalls second.2 = 1%nat ∧ second.1 = first.1.
Proof. vm_compute. split_and!; reflexivity. Qed.

(** C1, at a concrete input: the same valid submission served twice, ten
    seconds apart, against an upstream that answers 200 sends two calls
    upstream and leaves the cache empty; and the key the cached wrapper
    would compute is the same for different leagues and gameweeks. *)
Theorem repeated_submission_contacts_upstream_again :
  let s0 := mkServer (world_with always_ok) ∅ in
  let first := serve "secret" 0 (submit "PL" "5") s0 in
  let second := serve "secret" 10 (submit "PL" "5") first.2 in
  first.1 = second.1 ∧
  trace (world first.2) = [EvGet pl5 token] ∧
  trace (world second.2) = [EvGet pl5 token; EvGet pl5 token] ∧
  ncalls (world second.2) = 2%nat ∧
  cache (world second.2) = ∅ ∧
  make_cache_key (submit "PL" "5") = make_cache_key (submit "SA" "7").
Proof. vm_compute. split_and!; reflexivity. Qed.

(** C2 fails as stated: with 429 on three consecutive attempts and a 200
    ready for a fourth, three calls go out, no fourth, and the fetch raises
    instead of returning the successful response. *)
Lemma three_429_then_success_is_not_fetched :
  let w := world_with (limited_first 3) in
  rate_limited w pl5 3 ∧
  upstream w 3%nat pl5 = Replied r200 ∧
  (get_with_retries pl5 token default_max_retries w).1
    = Raise (PyException "Max retries exceeded") ∧
  ncalls (get_with_retries pl5 token default_max_retries w).2 = 3%nat.
Proof.
  split_and!; [apply limited_first_rate_limited | reflexivity..].
Qed.

Lemma rate_limited_then_success_witness :
  let w := world_with (limited_first 2) in
  ∃ w', get_with_retries pl5 token 3 w = (Ok r200, w') ∧
        ncalls w' = 3%nat ∧
        trace w' = [EvGet pl5 token; EvSleep 1; EvGet pl5 token; EvSleep 2;
                    EvGet pl5 token].
Proof.
  exact (rate_limited_then_success pl5 token 3 2 (world_with (limited_first 2)) r200
           ltac:(lia) (limited_first_rate_limited 2) eq_refl
           ltac:(unfold error_status; cbn; lia)).
Defined.

(** C3 fails as stated: a refused connection on the first attempt ends the
    fetch there, after one call, although the next call would have
    succeeded. *)
Lemma refused_connection_is_not_retried :
  let w := world_with refused_first in
  upstream w 0%nat pl5 = Failed "Connection refused" ∧
  upstream w 1%nat pl5 = Replied r200 ∧
  (get_with_retries pl5 token default_max_retries w).1
    = Raise (TransportError "Connection refused") ∧
  ncalls (get_with_retries pl5 token default_max_retries w).2 = 1%nat.
Proof. split_and!; reflexivity. Qed.

Lemma transport_failure_is_not_retried_witness :
  ∃ w', get_with_retries pl5 token 3 (world_with refused_first)
        = (Raise (TransportError "Connection refused"), w') ∧
        ncalls w' = 1%nat ∧
        trace w' = [EvGet pl5 token].
Proof.
  exact (transport_failure_is_not_retried pl5 token 3 0 (world_with refused_first)
           "Connection refused" ltac:(lia) (rate_limited_zero _ _) eq_refl).
Defined.

(** C4 fails as stated: with every attempt answered 429, the view does not
    fail with any error kind: it returns normally, and all that is left of
    the exception is its text on the page. *)
Lemma exhausted_retries_do_not_reach_the_caller :
  let w := world_with always_limited in
  ∃ page w',
    dispatch_request (app "secret") (submit "PL" "5") w = (Ok page, w') ∧
    context page !! "error" = Some (PJson (JStr "Max retries exceeded")) ∧
    ∀ e, (dispatch_request (app "secret") (submit "PL" "5") w).1 ≠ Raise e.
Proof.
  do 2 eexists. split_and!; [vm_compute; reflexivity | reflexivity |].
  intros e. vm_compute. discriminate.
Qed.

Lemma exhausted_retries_reach_the_page_as_text_witness :
  ∃ page w',
    dispatch_request (app "secret") (submit "PL" "5") (world_with always_limited)
      = (Ok page, w') ∧
    context page !! "matches" = Some (PJson JNull) ∧
    context page !! "error" = Some (PJson (JStr "Max retries exceeded")).
Proof.
  exact (proj2 (proj2 (proj2
    (exhausted_retries_reach_the_page_as_text "secret" (submit "PL" "5") "PL" "5"
       (world_with always_limited) submit_valid (always_limited_rate_limited _))))).
Defined.

Lemma no_failure_is_cached_witness :
  let w1 := (dispatch_request (app "secret") (submit "PL" "5")
               (world_with always_limited)).2 in
  (ncalls w1 <
   ncalls (dispatch_request (app "secret") (submit "PL" "5") (set_now 60 w1)).2)%nat.
Proof.
  exact (proj2 (proj2 (no_failure_is_cached "secret")) (submit "PL" "5") "PL" "5"
           (world_with always_limited) 60 submit_valid).
Defined.

Lemma invalid_submission_contacts_nothing_witness :
  ∃ f, dispatch_request (app "secret") (submit "XX" "5") (world_with always_ok)
       = (Ok (render_template "index.html"
                [("form", PForm f); ("favorites", PJson (JArr []))]),
          world_with always_ok) ∧
       (errors (league f) ≠ [] ∨ errors (gameweek f) ≠ []).
Proof.
  apply (invalid_submission_contacts_nothing "secret" (submit "XX" "5")
           (world_with always_ok) eq_refl eq_refl).
  left. intros l Hl [= <-].
  exact (proj1 (bool_decide_eq_false ("XX" ∈ league_codes)) eq_refl Hl).
Defined.

Lemma non_429_error_fails_immediately_witness :
  ∃ msg w', get_with_retries pl5 token 3 (world_with not_found_first)
            = (Raise (HTTPError msg r404), w') ∧
            ncalls w' = 1%nat ∧
            trace w' = [EvGet pl5 token].
Proof.
  exact (non_429_error_fails_immediately pl5 token 3 0 (world_with not_found_first)
           r404 ltac:(lia) (rate_limited_zero _ _) eq_refl
           ltac:(unfold error_status; cbn; lia) ltac:(cbn; lia)).
Defined.

Lemma one_match_well_formed : well_formed_match one_match.
Proof.
  exists {[ "homeTeam" := JObj {[ "id" := JNum 57; "name" := JStr "Arsenal FC" ]};
            "awayTeam" := JObj {[ "id" := JNum 61; "name" := JStr "Chelsea FC" ]};
            "utcDate" := JStr "2024-09-15T13:00:00Z";
            "status" := JStr "FINISHED";
            "score" := JObj {[ "winner" := JStr "HOME_TEAM" ]} ]},
         {[ "id" := JNum 57; "name" := JStr "Arsenal FC" ]},
         {[ "id" := JNum 61; "name" := JStr "Chelsea FC" ]}.
  split_and!; try reflexivity; eexists; reflexivity.
Defined.

Lemma matches_are_reshaped_witness :
  ∃ page summaries,
    dispatch_request (app "secret") (submit "PL" "5")
      (world_with (limited_first 2))
    = (Ok page, attempt_made pl5 token
                  (after_429s pl5 token 2 1 (world_with (limited_first 2)))) ∧
    context page !! "matches" = Some (PJson (JArr (JObj <$> summaries))) ∧
    context page !! "error" = Some (PJson JNull) ∧
    Forall2 is_summary_of [one_match] summaries.
Proof.
  exact (matches_are_reshaped "secret" (submit "PL" "5") "PL" "5"
           (world_with (limited_first 2)) _ r200 matches_field [one_match]
           submit_valid eq_refl eq_refl eq_refl
           (Forall_cons_2 _ _ _ one_match_well_formed (Forall_nil_2 _))).
Defined.

Import QuotaExamples.



Lemma get_with_retries_returns_only_success_witness :
  raise_for_status r200 = Ok tt ∧ ¬ error_status r200.
Proof.
  exact (get_with_retries_returns_only_success pl5 token 3
           (world_with (limited_first 1)) _ r200 eq_refl).
Defined.

(** ** Every run of [get_with_retries] *)

Section Runs.

Variables (url : string) (headers : list (string * string)).

Lemma rate_limited_cons (k : nat) (d : Z) (w : World) (r : Response) :
  upstream w (ncalls w) url = Replied r →
  status_code r = 429 →
  rate_limited (backed_off d (attempt_made url headers w)) url k →
  rate_limited w url (S k).
Proof.
  intros Hr H429 Hk [|i] Hi.
  - exists r. by rewrite Nat.add_0_r.
  - destruct (Hk i) as (r' & Hr' & H'); [lia|]. exists r'. split; [|done].
    cbn in Hr'. by replace (ncalls w + S i)%nat with (S (ncalls w + i)) by lia.
Qed.

Lemma fetch_end_step (n k : nat) (d : Z) (w : World) (res : Result Response)
    (last : bool) :
  fetch_end (backed_off d (attempt_made url headers w)) url n k res last →
  fetch_end w url (S n) (S k) res last.
Proof.
  intros H. destruct H as [Hk|r Hk Hr Hok|r msg Hk Hr He Hne|msg Hk Hr];
    cbn in *; try replace (S (ncalls w + k)) with (ncalls w + S k)%nat in Hr by lia.
  - apply fetch_exhausted. lia.
  - apply fetch_returned; [lia | done | done].
  - apply fetch_http_error; [lia | done | done | done].
  - apply fetch_unreachable; [lia | done].
Qed.

Lemma now_after_429s (k : nat) (d : Z) (w : World) :
  now (after_429s url headers k d w) = now w + d * (2 ^ Z.of_nat k - 1).
Proof.
  revert d w. induction k as [|k IH]; intros d w; cbn [after_429s].
  - cbn. lia.
  - rewrite IH. cbn [now backed_off advance attempt_made count_call log_event].
    rewrite Nat2Z.inj_succ, Z.pow_succ_r by lia. lia.
Qed.

Lemma favorites_after_429s (k : nat) (d : Z) (w : World) :
  favorites (after_429s url headers k d w) = favorites w.
Proof. revert d w. induction k as [|k IH]; intros d w; [done|]. cbn. by rewrite IH. Qed.

Lemma retry_loop_run (n : nat) (d : Z) (w : World) :
  ∃ k res last,
    (k ≤ n)%nat ∧ rate_limited w url k ∧ fetch_end w url n k res last ∧
    retry_loop url headers n d w = (res, run_end url headers k d last w).
Proof.
  revert d w. induction n as [|n IH]; intros d w.
  - exists O, (Raise (PyException "Max retries exceeded")), false.
    split_and!; [lia | intros i Hi; lia | by apply fetch_exhausted | done].
  - destruct (upstream w (ncalls w) url) as [r|msg] eqn:Hup.
    + destruct (decide (400 ≤ status_code r < 600)) as [Herr|Hok].
      * destruct (decide (status_code r = 429)) as [H429|Hne].
        -- destruct (IH (d * 2) (backed_off d (attempt_made url headers w)))
             as (k & res & last & Hk & Hlim & Hend & Hrun).
           exists (S k), res, last. split_and!.
           ++ lia.
           ++ by eapply rate_limited_cons.
           ++ by apply fetch_end_step with d.
           ++ rewrite (retry_loop_429 url headers n d w r Hup H429), Hrun.
              by destruct last.
        -- destruct (retry_loop_http_error url headers n d w r Hup Herr Hne)
             as [msg Hmsg].
           exists O, (Raise (HTTPError msg r)), true. split_and!;
             [lia | intros i Hi; lia | | done].
           apply fetch_http_error; [lia | by rewrite Nat.add_0_r | done | done].
      * exists O, (Ok r), true. split_and!; [lia | intros i Hi; lia | |].
        -- apply fetch_returned; [lia | by rewrite Nat.add_0_r | done].
        -- by apply retry_loop_success.
    + exists O, (Raise (TransportError msg)), true. split_and!;
        [lia | intros i Hi; lia | |].
      * apply fetch_unreachable; [lia | by rewrite Nat.add_0_r].
      * by apply retry_loop_transport.
Qed.

Lemma run_end_facts (k : nat) (last : bool) (w : World) :
  trace (run_end url headers k 1 last w)
    = trace w ++ fetch_events url headers k last ∧
  ncalls (run_end url headers k 1 last w)
    = (ncalls w + k + (if last then 1 else 0))%nat ∧
  now (run_end url headers k 1 last w) = now w + 2 ^ Z.of_nat k - 1 ∧
  cache (run_end url headers k 1 last w) = cache w ∧
  favorites (run_end url headers k 1 last w) = favorites w.
Proof.
  unfold run_end, fetch_events. destruct last; cbn;
    rewrite trace_after_429s, ncalls_after_429s, now_after_429s,
      cache_after_429s, favorites_after_429s;
    split_and!; try done; try lia.
  - by rewrite app_assoc.
  - by rewrite app_nil_r.
Qed.

Lemma fetch_end_last (w : World) (max_retries k : nat) (res : Result Response)
    (last : bool) :
  (k ≤ max_retries)%nat →
  fetch_end w url max_retries k res last →
  (k + (if last then 1 else 0) ≤ max_retries)%nat.
Proof. intros Hk H. destruct H; lia. Qed.

End Runs.

(** X1: every run of [get_with_retries] ends in one of four ways, after
    some number [k] of attempts answered 429: the budget is used up and
    "Max retries exceeded" is raised; or attempt [k + 1] is answered with a
    status outside 400..599 and that response is returned; or it is
    answered with an error status other than 429 and the [HTTPError]
    carrying that response is raised; or it gets no response and the
    transport exception is raised.  So an [HTTPError] that leaves
    [get_with_retries] never carries a 429. *)
Theorem get_with_retries_outcomes (url : string)
    (headers : list (string * string)) (max_retries : nat) (w : World) :
  ∃ k last,
    (k ≤ max_retries)%nat ∧ rate_limited w url k ∧
    fetch_end w url max_retries k
      (get_with_retries url headers max_retries w).1 last.
Proof.
  destruct (retry_loop_run url headers max_retries 1 w)
    as (k & res & last & Hk & Hlim & Hend & Hrun).
  exists k, last. unfold get_with_retries. by rewrite Hrun.
Qed.

(** X2: all a run of [get_with_retries] does to the world is send [GET]s
    for the given URL with the given headers and sleep between them: the
    calls alternate with sleeps of 1, 2, 4, ... seconds, there are never
    more calls than [max_retries], and the cache and the favorites are left
    alone. *)
Theorem get_with_retries_effects (url : string)
    (headers : list (string * string)) (max_retries : nat) (w : World) :
  ∃ k last,
    let w' := (get_with_retries url headers max_retries w).2 in
    (k + (if last : bool then 1 else 0) ≤ max_retries)%nat ∧
    trace w' = trace w ++ fetch_events url headers k last ∧
    ncalls w' = (ncalls w + k + (if last then 1 else 0))%nat ∧
    now w' = now w + 2 ^ Z.of_nat k - 1 ∧
    cache w' = cache w ∧ favorites w' = favorites w.
Proof.
  destruct (retry_loop_run url headers max_retries 1 w)
    as (k & res & last & Hk & Hlim & Hend & Hrun).
  exists k, last. unfold get_with_retries. rewrite Hrun. cbn [snd].
  split; [by eapply fetch_end_last|]. apply run_end_facts.
Qed.

(** X3: whatever the upstream does, [get_with_retries] sends at most
    [max_retries] calls (at least one when [max_retries] is positive) and
    sleeps at most [2 ^ max_retries - 1] seconds in all: 3 calls and 7
    seconds with the default budget. *)
Theorem get_with_retries_budget (url : string)
    (headers : list (string * string)) (max_retries : nat) (w : World) :
  let w' := (get_with_retries url headers max_retries w).2 in
  (ncalls w ≤ ncalls w' ≤ ncalls w + max_retries)%nat ∧
  ((0 < max_retries)%nat → (ncalls w < ncalls w')%nat) ∧
  now w ≤ now w' ≤ now w + 2 ^ Z.of_nat max_retries - 1.
Proof.
  destruct (retry_loop_run url headers max_retries 1 w)
    as (k & res & last & Hk & Hlim & Hend & Hrun).
  pose proof (fetch_end_last url w max_retries k res last Hk Hend) as Hlast.
  destruct (run_end_facts url headers k last w) as (_ & Hn & Ht & _).
  cbv zeta. unfold get_with_retries. rewrite Hrun. cbn [snd]. rewrite Hn, Ht.
  pose proof (Z.pow_pos_nonneg 2 (Z.of_nat k)).
  pose proof (Z.pow_le_mono_r 2 (Z.of_nat k) (Z.of_nat max_retries)).
  split_and!; try lia.
  intros Hpos. destruct Hend; lia.
Qed.

(** X4: when every attempt of the budget is answered 429, the program
    sleeps after each of them, the last one included, before it raises
    "Max retries exceeded": [max_retries] calls and [2 ^ max_retries - 1]
    seconds of sleep (7 seconds by default); with a budget of 0 it raises
    at once and sends nothing. *)
Theorem exhaustion_sleeps_after_every_attempt (url : string)
    (headers : list (string * string)) (max_retries : nat) (w : World) :
  rate_limited w url max_retries →
  ∃ w',
    get_with_retries url headers max_retries w
      = (Raise (PyException "Max retries exceeded"), w') ∧
    trace w' = trace w ++ backoff_events url headers max_retries 1 ∧
    ncalls w' = (ncalls w + max_retries)%nat ∧
    now w' = now w + 2 ^ Z.of_nat max_retries - 1.
Proof.
  intros Hlim. rewrite (get_with_retries_exhausted url headers max_retries w Hlim).
  eexists. split; [reflexivity|].
  rewrite trace_after_429s, ncalls_after_429s, now_after_429s.
  split_and!; [done | done | lia].
Qed.

(** ** Which submissions the form accepts *)

Lemma validate_field_errors_nil (f : SelectField) :
  errors (validate_field f) = [] → data f ∈ Some <$> (choices f).*1.
Proof.
  intros He. destruct (decide (data f ∈ Some <$> (choices f).*1)) as [|Hn]; [done|].
  by apply validate_field_invalid in Hn.
Qed.

Lemma validate_accepts (request : Request) (l g : string) :
  is_submitted request = true →
  submitted "league" request = Some l → l ∈ league_codes →
  submitted "gameweek" request = Some g → g ∈ gameweek_choices.*1 →
  validate_on_submit request (new_LeagueSelectForm (form request)) =
  (validated_form l g, true).
Proof.
  intros Hs Hl Hlc Hg Hgc. unfold validate_on_submit. rewrite Hs.
  unfold new_LeagueSelectForm, process. cbn [league gameweek].
  unfold submitted in Hl, Hg. rewrite Hl, Hg.
  rewrite <- league_choice_values in Hlc.
  rewrite !validate_field_valid;
    [done | done | | done |]; apply choices_not_blank, elem_of_app; auto.
Qed.

(** X5: a submission passes [validate_on_submit] exactly when the request
    method is a submitting one (POST, PUT, PATCH, DELETE), the first
    [league] value is one of PL, SA, BL1, FL1, PD, EC, and the first
    [gameweek] value is the plain decimal text of an integer from 1 to 38
    (so "05" or " 5" is refused). *)
Theorem validation_accepts_exactly (request : Request) :
  (validate_on_submit request (new_LeagueSelectForm (form request))).2 = true ↔
  is_submitted request = true ∧
  (∃ l, submitted "league" request = Some l ∧ l ∈ league_codes) ∧
  (∃ i : Z, 1 ≤ i ≤ 38 ∧ submitted "gameweek" request = Some (pretty i)).
Proof.
  split.
  - unfold validate_on_submit. destruct (is_submitted request); [|discriminate].
    cbn [snd]. intros [Hl Hg]%andb_true_iff.
    apply bool_decide_eq_true, validate_field_errors_nil in Hl.
    apply bool_decide_eq_true, validate_field_errors_nil in Hg.
    unfold new_LeagueSelectForm, process in Hl, Hg.
    cbn [league gameweek choices data] in Hl, Hg.
    apply list_elem_of_fmap in Hl as (l & Hl & Hlc).
    apply list_elem_of_fmap in Hg as (g & Hg & (i & Hi & ->)%gameweek_choice_values).
    rewrite league_choice_values in Hlc.
    split; [done|]. split; [by exists l | by exists i].
  - intros (Hs & (l & Hl & Hlc) & (i & Hi & Hg)).
    rewrite (validate_accepts request l (pretty i)); [done..|].
    apply gameweek_choice_values. by exists i.
Qed.

(** ** More on the [matches] view *)

(** What the view does, by the verdict of the validation. *)
Lemma matches_def_cases (key : string) (request : Request) (w : World) :
  (∃ f, matches_def key request w =
        (Ok (render_template "index.html"
               [("form", PForm f); ("favorites", PJson (JArr (favorites w)))]), w)) ∨
  (∃ l (i : Z), l ∈ league_codes ∧ 1 ≤ i ≤ 38 ∧
     matches_def key request w =
     let fetched := get_with_retries (matches_url l (pretty i))
                      [("X-Auth-Token", key)] default_max_retries w in
     (Ok (render_template "index.html"
            [("form", PForm (validated_form l (pretty i)));
             ("matches", PJson (fetch_outcome fetched.1).1);
             ("error", PJson (fetch_outcome fetched.1).2);
             ("favorites", PJson (JArr (favorites fetched.2)))]),
      fetched.2)).
Proof.
  destruct (validate_on_submit request (new_LeagueSelectForm (form request)))
    as [f [|]] eqn:Hv.
  - right. destruct (proj1 (validation_accepts_exactly request))
      as (Hs & (l & Hl & Hlc) & (i & Hi & Hg)); [by rewrite Hv|].
    exists l, i. split; [done|]. split; [done|].
    assert (Hacc := validate_accepts request l (pretty i) Hs Hl Hlc Hg
                      (proj2 (gameweek_choice_values _) (ex_intro _ i (conj Hi eq_refl)))).
    unfold matches_def. rewrite Hacc.
    cbn [data league gameweek validated_form fmt default].
    fold (matches_url l (pretty i)).
    cbv zeta. unfold bind at 1. unfold try_except. unfold bind at 1.
    destruct (get_with_retries _ _ _ w) as [[r|e] w1]; [|reflexivity].
    unfold fetch_outcome, shaped, bind, lift, ret, load_favorites.
    cbn [rbind fst snd].
    destruct (response_json r) as [d|e]; [|reflexivity]. cbn [rbind].
    destruct (py_contains "matches" d) as [[|]|e]; [|reflexivity|reflexivity].
    cbn [rbind].
    destruct (py_getitem d "matches") as [ms|e]; [|reflexivity]. cbn [rbind].
    destruct (py_iter ms) as [items|e]; [|reflexivity]. cbn [rbind].
    destruct (comprehension shape_match items) as [ss|e]; reflexivity.
  - left. exists f. unfold matches_def. by rewrite Hv.
Qed.

(** The two variables the [try] block leaves: a list and no error, or no
    list and an error text. *)
Lemma fetch_outcome_exclusive (fetched : Result Response) :
  (∃ ss, fetch_outcome fetched = (JArr (JObj <$> ss), JNull)) ∨
  (∃ msg, fetch_outcome fetched = (JNull, JStr msg)).
Proof.
  unfold fetch_outcome. destruct fetched as [r|e]; cbn [rbind]; [|eauto].
  unfold shaped.
  destruct (response_json r) as [d|e]; cbn [rbind]; [|eauto].
  destruct (py_contains "matches" d) as [[|]|e]; cbn [rbind]; [|eauto|eauto].
  destruct (rbind (py_getitem d "matches") _) as [ss|e]; cbn [rbind]; eauto.
Qed.

Lemma try_except_catches_all {A} (body : M A) (h : exn → A) (w : World) :
  ∃ a w1, try_except body (λ _, true) (λ e, ret (h e)) w = (Ok a, w1).
Proof. unfold try_except, ret. destruct (body w) as [[a|e] w1]; eauto. Qed.

(** X6: no exception of the fetch leaves [matches]: whatever is submitted
    and whatever the upstream does (error statuses, failed connections,
    bodies that are not JSON or not of the expected shape), the [try] block
    ends normally, and the view returns a page unless the call of
    [load_favorites] that follows raises; then that exception, and no
    other, leaves the view.  With the favorites file readable as a list the
    view is [matches_def]. *)
Theorem matches_raises_only_from_favorites (key : string) (load : M json)
    (request : Request) (w : World) :
  (∃ w1 (render : json → Page),
     matches_with key load request w =
     match load w1 with
     | (Ok favs, w2) => (Ok (render favs), w2)
     | (Raise e, w2) => (Raise e, w2)
     end) ∧
  matches_with key (favs <- load_favorites ;; ret (JArr favs)) request w =
  matches_def key request w.
Proof.
  unfold matches_with, matches_def.
  destruct (validate_on_submit _ _) as [f [|]]; cbv zeta.
  - unfold bind at 1 3 5.
    match goal with
    | |- context [try_except ?body _ _ w] =>
        destruct (try_except_catches_all body (λ e, (JNull, JStr (str_exn e))) w)
          as ([mi err] & w1 & ->)
    end.
    split.
    + exists w1, (λ favs, render_template "index.html"
                           [("form", PForm f); ("matches", PJson mi);
                            ("error", PJson err); ("favorites", PJson favs)]).
      unfold bind, ret. by destruct (load w1) as [[favs|e] w2].
    + reflexivity.
  - split; [|reflexivity].
    exists w, (λ favs, render_template "index.html"
                         [("form", PForm f); ("favorites", PJson favs)]).
    unfold bind, ret. by destruct (load w) as [[favs|e] w2].
Qed.

(** X7: for an accepted submission the page has both [matches] and [error],
    and exactly one of them is [None]: either the full list of reshaped
    matches with no error, or no list at all with an error text; a list is
    never shown next to an error. *)
Theorem matches_or_error (key : string) (request : Request) (l g : string)
    (w : World) :
  valid_submission request l g →
  ∃ page w',
    dispatch_request (app key) request w = (Ok page, w') ∧
    ((∃ ss, context page !! "matches" = Some (PJson (JArr (JObj <$> ss))) ∧
            context page !! "error" = Some (PJson JNull)) ∨
     (∃ msg, context page !! "matches" = Some (PJson JNull) ∧
             context page !! "error" = Some (PJson (JStr msg)))).
Proof.
  intros Hv. pose proof Hv as (Hm & Hp & _).
  rewrite dispatch_matches by done.
  rewrite (matches_def_valid key request l g w Hv). cbv zeta.
  do 2 eexists. split; [reflexivity|].
  destruct (fetch_outcome_exclusive
              (get_with_retries (matches_url l g) [("X-Auth-Token", key)]
                 default_max_retries w).1) as [(ss & ->)|(msg & ->)];
    [left; exists ss | right; exists msg]; split; reflexivity.
Qed.

Lemma fetch_events_only (url : string) (headers : list (string * string))
    (k : nat) (last : bool) :
  Forall (λ ev, (∃ d, ev = EvSleep d) ∨ ev = EvGet url headers)
         (fetch_events url headers k last).
Proof.
  unfold fetch_events. apply Forall_app. split.
  - generalize 1. induction k as [|k IH]; intros d; cbn [backoff_events].
    + constructor.
    + constructor; [by right|]. constructor; [left; by exists d|]. apply IH.
  - destruct last; [|constructor]. constructor; [by right | constructor].
Qed.

(** X8: the only requests [matches] ever sends upstream are [GET]s of
    [/v4/competitions/<league>/matches?matchday=<gameweek>] for one of the
    six listed leagues and a gameweek from 1 to 38, with the API key as
    [X-Auth-Token]; nothing a client submits can make it request another
    URL, and it never reads or writes the cache. *)
Theorem matches_requests_only_listed_urls (key : string) (request : Request)
    (w : World) :
  ∃ evs, trace (matches_def key request w).2 = trace w ++ evs ∧
         Forall (matches_event key) evs.
Proof.
  destruct (matches_def_cases key request w) as [(f & ->)|(l & i & Hl & Hi & ->)].
  - exists []. split; [by rewrite app_nil_r | constructor].
  - cbv zeta. cbn [snd].
    destruct (get_with_retries_effects (matches_url l (pretty i))
                [("X-Auth-Token", key)] default_max_retries w)
      as (k & last & _ & Htr & _).
    exists (fetch_events (matches_url l (pretty i)) [("X-Auth-Token", key)] k last).
    split; [exact Htr|].
    eapply Forall_impl; [apply fetch_events_only|].
    intros ev [Hs| ->]; [by left | right]. by exists l, i.
Qed.

(** X9: when the fetch returns a JSON object without a [matches] key, the
    page shows no list and the message "No matches found for the given
    league code and gameweek.". *)
Theorem body_without_matches_key (key : string) (request : Request)
    (l g : string) (w w1 : World) (r : Response) (d : gmap string json) :
  valid_submission request l g →
  get_with_retries (matches_url l g) [("X-Auth-Token", key)]
    default_max_retries w = (Ok r, w1) →
  json_ r = Some (JObj d) →
  d !! "matches" = None →
  ∃ page,
    dispatch_request (app key) request w = (Ok page, w1) ∧
    context page !! "matches" = Some (PJson JNull) ∧
    context page !! "error" =
      Some (PJson (JStr "No matches found for the given league code and gameweek.")).
Proof.
  intros Hv Hget Hj Hd. pose proof Hv as (Hm & Hp & _).
  rewrite dispatch_matches by done.
  rewrite (matches_def_valid key request l g w Hv), Hget. cbv zeta. cbn [fst snd].
  eexists. split; [reflexivity|].
  unfold fetch_outcome. cbn [rbind]. unfold shaped, response_json. rewrite Hj.
  cbn [rbind py_contains]. rewrite Hd. split; reflexivity.
Qed.

Lemma shape_match_ok_inv (m : json) (s : gmap string json) :
  shape_match m = Ok s → well_formed_match m.
Proof.
  unfold shape_match.
  destruct m as [| | | | |o]; cbn [py_getitem py_get rbind]; try discriminate.
  destruct (o !! "homeTeam") as [[| | | | |home]|] eqn:Hh;
    cbn [py_getitem rbind]; try discriminate.
  destruct (home !! "name") as [hn|] eqn:Hhn; cbn [rbind]; [|discriminate].
  destruct (home !! "id") as [hi|] eqn:Hhi; cbn [rbind]; [|discriminate].
  destruct (o !! "awayTeam") as [[| | | | |away]|] eqn:Ha;
    cbn [py_getitem rbind]; try discriminate.
  destruct (away !! "name") as [an|] eqn:Han; cbn [rbind]; [|discriminate].
  destruct (away !! "id") as [ai|] eqn:Hai; cbn [rbind]; [|discriminate].
  destruct (o !! "utcDate") as [u|] eqn:Hu; cbn [rbind]; [|discriminate].
  destruct (o !! "status") as [st|] eqn:Hst; cbn [rbind]; [|discriminate].
  destruct (o !! "score") as [sc|] eqn:Hsc; cbn [rbind]; [|discriminate].
  intros _. exists o, home, away. split_and!; eauto.
Qed.

Lemma comprehension_ok_inv {A B} (f : A → Result B) (l : list A) (ys : list B) :
  comprehension f l = Ok ys → Forall (λ x, ∃ y, f x = Ok y) l.
Proof.
  revert ys. induction l as [|x l IH]; intros ys; cbn [comprehension]; [constructor|].
  destruct (f x) as [y|e] eqn:Hx; cbn [rbind]; [|discriminate].
  destruct (comprehension f l) as [ys'|e] eqn:Hl; cbn [rbind]; [|discriminate].
  intros _. constructor; [by exists y | by eapply IH].
Qed.

(** X10: one upstream match that lacks a required field spoils the whole
    answer: the page then shows no list at all and the text of the
    exception; the matches before and after the bad one are not shown. *)
Theorem malformed_match_discards_the_list (key : string) (request : Request)
    (l g : string) (w w1 : World) (r : Response) (d : gmap string json)
    (ms : list json) :
  valid_submission request l g →
  get_with_retries (matches_url l g) [("X-Auth-Token", key)]
    default_max_retries w = (Ok r, w1) →
  json_ r = Some (JObj d) →
  d !! "matches" = Some (JArr ms) →
  ¬ Forall well_formed_match ms →
  ∃ page msg,
    dispatch_request (app key) request w = (Ok page, w1) ∧
    context page !! "matches" = Some (PJson JNull) ∧
    context page !! "error" = Some (PJson (JStr msg)).
Proof.
  intros Hv Hget Hj Hd Hbad. pose proof Hv as (Hm & Hp & _).
  rewrite dispatch_matches by done.
  rewrite (matches_def_valid key request l g w Hv), Hget. cbv zeta. cbn [fst snd].
  destruct (comprehension shape_match ms) as [ss|e] eqn:Hc.
  - exfalso. apply Hbad. apply comprehension_ok_inv in Hc.
    eapply Forall_impl; [exact Hc|]. intros m [s Hs]. by eapply shape_match_ok_inv.
  - exists (render_template "index.html"
              [("form", PForm (validated_form l g)); ("matches", PJson JNull);
               ("error", PJson (JStr (str_exn e)));
               ("favorites", PJson (JArr (favorites w1)))]), (str_exn e).
    split; [|split; reflexivity].
    unfold fetch_outcome. cbn [rbind]. unfold shaped, response_json. rewrite Hj.
    cbn [rbind py_contains py_getitem]. rewrite Hd. cbn [rbind py_iter].
    rewrite Hc. reflexivity.
Qed.

(** X11: in the dict built for a match, [homeTeam] and [awayTeam] are the
    names and [homeTeamId] and [awayTeamId] the ids of the upstream teams,
    [utcDate], [status] and [score] are passed on unchanged, and [venue] is
    the upstream value whenever the field is present, a JSON null
    included: only an absent field becomes "N/A". *)
Theorem shape_match_fields (o home away : gmap string json)
    (hn hi an ai u st sc : json) :
  o !! "homeTeam" = Some (JObj home) →
  home !! "name" = Some hn → home !! "id" = Some hi →
  o !! "awayTeam" = Some (JObj away) →
  away !! "name" = Some an → away !! "id" = Some ai →
  o !! "utcDate" = Some u → o !! "status" = Some st → o !! "score" = Some sc →
  ∃ s, shape_match (JObj o) = Ok s ∧
       s !! "homeTeam" = Some hn ∧ s !! "homeTeamId" = Some hi ∧
       s !! "awayTeam" = Some an ∧ s !! "awayTeamId" = Some ai ∧
       s !! "utcDate" = Some u ∧ s !! "status" = Some st ∧
       s !! "score" = Some sc ∧
       s !! "venue" = Some (default (JStr "N/A") (o !! "venue")).
Proof.
  intros Hh Hhn Hhi Ha Han Hai Hu Hst Hsc. unfold shape_match.
  do 3 (cbn [rbind py_getitem py_get];
        rewrite ?Hh, ?Ha, ?Hhn, ?Hhi, ?Han, ?Hai, ?Hu, ?Hst, ?Hsc).
  cbn [rbind py_getitem py_get].
  eexists. split; [reflexivity|]. split_and!; reflexivity.
Qed.

(** ** The [team_details] view *)

Lemma team_details_unfold (key : string) (team_id : nat) (w : World) :
  team_details key team_id w =
  let fetched := get_with_retries (team_url team_id) [("X-Auth-Token", key)]
                   default_max_retries w in
  (Ok (render_template "team.html"
         [("team", PJson (team_outcome fetched.1).1);
          ("error", PJson (team_outcome fetched.1).2)]),
   fetched.2).
Proof.
  unfold team_details. fold (team_url team_id).
  cbv zeta. unfold bind at 1. unfold try_except. unfold bind at 1.
  destruct (get_with_retries _ _ _ w) as [[r|e] w1]; [|reflexivity].
  unfold team_outcome, bind, lift, ret. cbn [rbind fst snd].
  destruct (response_json r) as [j|e]; reflexivity.
Qed.

(** X12: [team_details] never raises and never caches: for every team id
    and every upstream it returns the team page, after one to three [GET]s
    of [/v4/teams/<id>] with the API key and nothing else but the sleeps
    between them; on the page [team] and [error] are never both set. *)
Theorem team_details_always_answers (key : string) (team_id : nat) (w : World) :
  ∃ t e k last,
    (team_details key team_id w).1 =
      Ok (render_template "team.html" [("team", PJson t); ("error", PJson e)]) ∧
    (t = JNull ∨ e = JNull) ∧
    trace (team_details key team_id w).2 =
      trace w ++ fetch_events (team_url team_id) [("X-Auth-Token", key)] k last ∧
    (1 ≤ k + (if last : bool then 1 else 0) ≤ 3)%nat ∧
    cache (team_details key team_id w).2 = cache w.
Proof.
  rewrite team_details_unfold. cbv zeta. cbn [fst snd].
  destruct (get_with_retries_effects (team_url team_id) [("X-Auth-Token", key)]
              default_max_retries w) as (k & last & Hle & Htr & Hn & _ & Hc & _).
  destruct (get_with_retries_budget (team_url team_id) [("X-Auth-Token", key)]
              default_max_retries w) as (_ & Hpos & _).
  cbv zeta in Hle, Htr, Hn, Hc, Hpos.
  exists (team_outcome (get_with_retries (team_url team_id) [("X-Auth-Token", key)]
                          default_max_retries w).1).1,
         (team_outcome (get_with_retries (team_url team_id) [("X-Auth-Token", key)]
                          default_max_retries w).1).2, k, last.
  split_and!; [done | | done | | done | done].
  - unfold team_outcome. destruct (rbind _ _); cbn [fst snd]; auto.
  - specialize (Hpos ltac:(unfold default_max_retries; lia)). lia.
Qed.

(** X13: when the fetch returns a response with a JSON body, the page shows
    that body unchanged as [team], and no error. *)
Theorem team_details_passes_body_on (key : string) (team_id : nat)
    (w w1 : World) (r : Response) (j : json) :
  get_with_retries (team_url team_id) [("X-Auth-Token", key)]
    default_max_retries w = (Ok r, w1) →
  json_ r = Some j →
  team_details key team_id w =
  (Ok (render_template "team.html" [("team", PJson j); ("error", PJson JNull)]), w1).
Proof.
  intros Hget Hj. rewrite team_details_unfold, Hget. cbv zeta. cbn [fst snd].
  unfold team_outcome. cbn [rbind]. unfold response_json. by rewrite Hj.
Qed.

(** X14: when the fetch raises, the page shows no team and the text of the
    exception as [error]; when it returns a body that is not JSON, the page
    shows no team and the text of the decoder's error for that body. *)
Theorem team_details_shows_failure_text (key : string) (team_id : nat)
    (w w1 : World) (fetched : Result Response) (e : exn) :
  get_with_retries (team_url team_id) [("X-Auth-Token", key)]
    default_max_retries w = (fetched, w1) →
  fetched = Raise e ∨ (∃ r, fetched = Ok r ∧ json_ r = None ∧
                            e = JSONDecodeError (json_error r)) →
  team_details key team_id w =
  (Ok (render_template "team.html"
         [("team", PJson JNull); ("error", PJson (JStr (str_exn e)))]), w1).
Proof.
  intros Hget Hf. rewrite team_details_unfold, Hget. cbv zeta. cbn [fst snd].
  unfold team_outcome.
  destruct Hf as [->|(r & -> & Hj & ->)]; cbn [rbind]; [done|].
  unfold response_json. by rewrite Hj.
Qed.

(** ** The favorites *)

Lemma has_id_dec (fav : json) : has_id fav ∨ ¬ has_id fav.
Proof.
  destruct fav as [| | | | |o]; try by (right; intros (? & ? & [=] & _)).
  destruct (o !! "id") as [v|] eqn:Hv; [left; by exists o, v|].
  right. intros (o' & v' & [= <-] & Hv'). congruence.
Qed.

Lemma py_getitem_id (fav : json) :
  has_id fav → py_getitem fav "id" = Ok (id_of fav).
Proof. intros (o & v & -> & Hv). cbn. by rewrite Hv. Qed.

Lemma py_getitem_no_id (fav : json) :
  ¬ has_id fav → ∃ e, py_getitem fav "id" = Raise e.
Proof.
  intros Hn. destruct fav as [| | | | |o]; cbn; eauto.
  destruct (o !! "id") as [v|] eqn:Hv; [|eauto].
  exfalso. apply Hn. by exists o, v.
Qed.

Lemma ids_readable (favs : list json) :
  Forall has_id favs →
  comprehension (λ fav, py_getitem fav "id") favs = Ok (id_of <$> favs).
Proof.
  induction 1 as [|fav favs Hf _ IH]; [done|].
  cbn [comprehension]. by rewrite (py_getitem_id fav Hf), IH.
Qed.

Lemma ids_unreadable (favs : list json) :
  ¬ Forall has_id favs →
  ∃ e, comprehension (λ fav, py_getitem fav "id") favs = Raise e.
Proof.
  induction favs as [|fav favs IH]; intros Hn; [by destruct Hn|].
  cbn [comprehension]. destruct (has_id_dec fav) as [Hf|Hf].
  - rewrite (py_getitem_id fav Hf). cbn [rbind].
    destruct IH as [e He]; [intros Hall; apply Hn; by constructor|].
    exists e. by rewrite He.
  - destruct (py_getitem_no_id fav Hf) as [e He]. exists e. by rewrite He.
Qed.

Lemma is_favorite_elem (team_id : string) (favs : list json) :
  is_favorite team_id favs = true ↔ JStr team_id ∈ id_of <$> favs.
Proof.
  unfold is_favorite. rewrite existsb_exists. split.
  - intros (j & Hin & Hj). destruct j; try discriminate.
    apply String.eqb_eq in Hj as ->. by apply list_elem_of_In.
  - intros Hin. exists (JStr team_id). split; [by apply list_elem_of_In|].
    cbn. apply String.eqb_refl.
Qed.

Lemma add_favorite_run (request : Request) (w : World) (tid tn : string) :
  submitted "team_id" request = Some tid →
  submitted "team_name" request = Some tn →
  add_favorite request w =
  match comprehension (λ fav, py_getitem fav "id") (favorites w) with
  | Ok ids =>
      (Ok (mkRedirect "/" 302),
       if existsb (py_eq_str tid) ids then w
       else set_favorites (favorites w ++ [new_favorite tid tn]) w)
  | Raise e => (Raise e, w)
  end.
Proof.
  unfold submitted. intros Hid Hname. unfold add_favorite, form_getitem.
  rewrite Hid, Hname. unfold bind, ret, load_favorites, lift, save_favorites.
  destruct (comprehension _ (favorites w)) as [ids|e]; [|done].
  by destruct (existsb (py_eq_str tid) ids).
Qed.

(** X15: an [add_favorite] request without a [team_id] or without a
    [team_name] is answered 400 and changes nothing: the favorites are not
    even read. *)
Theorem add_favorite_missing_field (request : Request) (w : World) :
  submitted "team_id" request = None ∨ submitted "team_name" request = None →
  add_favorite request w = (Raise (HTTPException 400 "Bad Request"), w).
Proof.
  unfold submitted, add_favorite, form_getitem, bind.
  intros [H|H].
  - by rewrite H.
  - rewrite H. by destruct (head (getlist "team_id" (form request))).
Qed.

(** X16: with both fields submitted and a store in which every favorite has
    an [id], [add_favorite] redirects to the front page; a team whose id is
    not stored yet is appended after the stored favorites, which stay as
    they are and in their order, and a team whose id is stored already
    changes nothing.  No call goes upstream and the cache is left alone. *)
Theorem add_favorite_appends_new_team (request : Request) (w : World)
    (tid tn : string) :
  submitted "team_id" request = Some tid →
  submitted "team_name" request = Some tn →
  Forall has_id (favorites w) →
  add_favorite request w =
  (Ok (mkRedirect "/" 302),
   if is_favorite tid (favorites w) then w
   else set_favorites (favorites w ++ [new_favorite tid tn]) w).
Proof.
  intros Hid Hname Hall. rewrite (add_favorite_run request w tid tn Hid Hname).
  by rewrite (ids_readable _ Hall).
Qed.

Lemma has_id_new_favorite (tid tn : string) : has_id (new_favorite tid tn).
Proof. eexists _, (JStr tid). split; reflexivity. Qed.

Lemma is_favorite_after_append (tid tn : string) (favs : list json) :
  is_favorite tid (favs ++ [new_favorite tid tn]) = true.
Proof.
  apply is_favorite_elem. rewrite fmap_app. apply elem_of_app. right.
  change (id_of <$> [new_favorite tid tn]) with [JStr tid]. apply list_elem_of_here.
Qed.

(** X17: adding a favorite is idempotent: after one [add_favorite], the
    same request again redirects and leaves the world exactly as it is, so
    a team is never stored twice by repeating a request. *)
Theorem add_favorite_idempotent (request : Request) (w : World)
    (tid tn : string) :
  submitted "team_id" request = Some tid →
  submitted "team_name" request = Some tn →
  Forall has_id (favorites w) →
  let w1 := (add_favorite request w).2 in
  add_favorite request w1 = (Ok (mkRedirect "/" 302), w1).
Proof.
  intros Hid Hname Hall w1. subst w1.
  rewrite (add_favorite_appends_new_team request w tid tn Hid Hname Hall). cbn [snd].
  destruct (is_favorite tid (favorites w)) eqn:Hfav.
  - rewrite (add_favorite_appends_new_team request w tid tn Hid Hname Hall).
    by rewrite Hfav.
  - rewrite (add_favorite_appends_new_team request _ tid tn Hid Hname).
    + cbn [favorites set_favorites]. by rewrite is_favorite_after_append.
    + cbn [favorites set_favorites]. apply Forall_app. split; [done|].
      constructor; [apply has_id_new_favorite | constructor].
Qed.

(** X18: [add_favorite] keeps the store well formed: if every stored
    favorite has an [id] and the ids are pairwise different, the same holds
    after any [add_favorite] request, whatever it submits. *)
Theorem add_favorite_keeps_ids_distinct (request : Request) (w : World) :
  Forall has_id (favorites w) →
  NoDup (id_of <$> favorites w) →
  let w' := (add_favorite request w).2 in
  Forall has_id (favorites w') ∧ NoDup (id_of <$> favorites w').
Proof.
  intros Hall Hnd. cbv zeta.
  destruct (submitted "team_id" request) as [tid|] eqn:Hid;
    [|by rewrite add_favorite_missing_field by auto].
  destruct (submitted "team_name" request) as [tn|] eqn:Hname;
    [|by rewrite add_favorite_missing_field by auto].
  rewrite (add_favorite_appends_new_team request w tid tn Hid Hname Hall). cbn [snd].
  destruct (is_favorite tid (favorites w)) eqn:Hfav; [done|].
  cbn [favorites set_favorites]. split.
  - apply Forall_app. split; [done|].
    constructor; [apply has_id_new_favorite | constructor].
  - rewrite fmap_app. change (id_of <$> [new_favorite tid tn]) with [JStr tid].
    apply NoDup_app. split_and!; [done | | apply NoDup_singleton].
    intros j Hj Hin%list_elem_of_singleton. subst j.
    apply is_favorite_elem in Hj. congruence.
Qed.

(** X19: when a stored favorite cannot be read (it is not an object, or has
    no [id]), [add_favorite] raises instead of redirecting (a [KeyError] or
    a [TypeError], a 500 for the client) and nothing is saved. *)
Theorem add_favorite_unreadable_store (request : Request) (w : World)
    (tid tn : string) :
  submitted "team_id" request = Some tid →
  submitted "team_name" request = Some tn →
  ¬ Forall has_id (favorites w) →
  ∃ e, add_favorite request w = (Raise e, w).
Proof.
  intros Hid Hname Hbad. rewrite (add_favorite_run request w tid tn Hid Hname).
  destruct (ids_unreadable _ Hbad) as [e He]. exists e. by rewrite He.
Qed.

(** X20: a team added with [add_favorite] is on the front page from then
    on: [index] lists the stored favorites followed by the new one, with its
    [id] and [name] as submitted. *)
Theorem added_favorite_is_listed (request visitor : Request) (w : World)
    (tid tn : string) :
  submitted "team_id" request = Some tid →
  submitted "team_name" request = Some tn →
  Forall has_id (favorites w) →
  is_favorite tid (favorites w) = false →
  ∃ page,
    (index visitor (add_favorite request w).2).1 = Ok page ∧
    context page !! "favorites" =
      Some (PJson (JArr (favorites w ++
                           [JObj {[ "id" := JStr tid; "name" := JStr tn ]}]))).
Proof.
  intros Hid Hname Hall Hnew.
  rewrite (add_favorite_appends_new_team request w tid tn Hid Hname Hall), Hnew.
  eexists. split; reflexivity.
Qed.

(** ** More concrete runs *)

Import MoreExamples.

Lemma exhaustion_sleeps_after_every_attempt_witness :
  ∃ w',
    get_with_retries pl5 token 3 (world_with always_limited)
      = (Raise (PyException "Max retries exceeded"), w') ∧
    trace w' = [EvGet pl5 token; EvSleep 1; EvGet pl5 token; EvSleep 2;
                EvGet pl5 token; EvSleep 4] ∧
    ncalls w' = 3%nat ∧
    now w' = 7.
Proof.
  exact (exhaustion_sleeps_after_every_attempt pl5 token 3
           (world_with always_limited) (always_limited_rate_limited 3)).
Defined.

Lemma matches_or_error_witness :
  ∃ page w',
    dispatch_request (app "secret") (submit "PL" "5") (world_with always_ok)
      = (Ok page, w') ∧
    ((∃ ss, context page !! "matches" = Some (PJson (JArr (JObj <$> ss))) ∧
            context page !! "error" = Some (PJson JNull)) ∨
     (∃ msg, context page !! "matches" = Some (PJson JNull) ∧
             context page !! "error" = Some (PJson (JStr msg)))).
Proof.
  exact (matches_or_error "secret" (submit "PL" "5") "PL" "5"
           (world_with always_ok) submit_valid).
Defined.

Lemma body_without_matches_key_witness :
  ∃ page,
    dispatch_request (app "secret") (submit "PL" "5")
      (world_with (always r200_no_matches))
    = (Ok page, attempt_made pl5 token (world_with (always r200_no_matches))) ∧
    context page !! "matches" = Some (PJson JNull) ∧
    context page !! "error" =
      Some (PJson (JStr "No matches found for the given league code and gameweek.")).
Proof.
  exact (body_without_matches_key "secret" (submit "PL" "5") "PL" "5"
           (world_with (always r200_no_matches)) _ r200_no_matches ∅
           submit_valid eq_refl eq_refl eq_refl).
Defined.

Lemma empty_match_malformed : ¬ Forall well_formed_match [one_match; empty_match].
Proof.
  intros H. apply Forall_cons in H as [_ H]. apply Forall_cons in H as [H _].
  destruct H as (o & home & away & [= <-] & Hh & _). discriminate Hh.
Defined.

Lemma malformed_match_discards_the_list_witness :
  ∃ page msg,
    dispatch_request (app "secret") (submit "PL" "5")
      (world_with (always r200_one_bad))
    = (Ok page, attempt_made pl5 token (world_with (always r200_one_bad))) ∧
    context page !! "matches" = Some (PJson JNull) ∧
    context page !! "error" = Some (PJson (JStr msg)).
Proof.
  exact (malformed_match_discards_the_list "secret" (submit "PL" "5") "PL" "5"
           (world_with (always r200_one_bad)) _ r200_one_bad
           {[ "matches" := JArr [one_match; empty_match] ]} [one_match; empty_match]
           submit_valid eq_refl eq_refl eq_refl empty_match_malformed).
Defined.

Lemma shape_match_fields_witness :
  ∃ s, shape_match
         (JObj {[ "homeTeam" := JObj {[ "id" := JNum 57; "name" := JStr "Arsenal FC" ]};
                  "awayTeam" := JObj {[ "id" := JNum 61; "name" := JStr "Chelsea FC" ]};
                  "utcDate" := JStr "2024-09-15T13:00:00Z";
                  "venue" := JNull;
                  "status" := JStr "TIMED";
                  "score" := JNull ]}) = Ok s ∧
       s !! "homeTeam" = Some (JStr "Arsenal FC") ∧ s !! "homeTeamId" = Some (JNum 57) ∧
       s !! "awayTeam" = Some (JStr "Chelsea FC") ∧ s !! "awayTeamId" = Some (JNum 61) ∧
       s !! "utcDate" = Some (JStr "2024-09-15T13:00:00Z") ∧
       s !! "status" = Some (JStr "TIMED") ∧
       s !! "score" = Some JNull ∧
       s !! "venue" = Some JNull.
Proof.
  exact (shape_match_fields
           {[ "homeTeam" := JObj {[ "id" := JNum 57; "name" := JStr "Arsenal FC" ]};
              "awayTeam" := JObj {[ "id" := JNum 61; "name" := JStr "Chelsea FC" ]};
              "utcDate" := JStr "2024-09-15T13:00:00Z";
              "venue" := JNull;
              "status" := JStr "TIMED";
              "score" := JNull ]}
           {[ "id" := JNum 57; "name" := JStr "Arsenal FC" ]}
           {[ "id" := JNum 61; "name" := JStr "Chelsea FC" ]}
           (JStr "Arsenal FC") (JNum 57) (JStr "Chelsea FC") (JNum 61)
           (JStr "2024-09-15T13:00:00Z") (JStr "TIMED") JNull
           eq_refl eq_refl eq_refl eq_refl eq_refl eq_refl eq_refl eq_refl eq_refl).
Defined.

Lemma team_details_passes_body_on_witness :
  team_details "secret" 57 (world_with (always r200_team)) =
  (Ok (render_template "team.html"
         [("team", PJson arsenal); ("error", PJson JNull)]),
   attempt_made (team_url 57) token (world_with (always r200_team))).
Proof.
  exact (team_details_passes_body_on "secret" 57 (world_with (always r200_team)) _
           r200_team arsenal eq_refl eq_refl).
Defined.

Lemma team_details_shows_failure_text_witness :
  team_details "secret" 57 (world_with (always r200_cut)) =
  (Ok (render_template "team.html"
         [("team", PJson JNull);
          ("error",
           PJson (JStr "Expecting property name enclosed in double quotes: line 1 column 2 (char 1)"))]),
   attempt_made (team_url 57) token (world_with (always r200_cut))).
Proof.
  exact (team_details_shows_failure_text "secret" 57 (world_with (always r200_cut)) _
           (Ok r200_cut) _ eq_refl
           (or_intror (ex_intro _ r200_cut (conj eq_refl (conj eq_refl eq_refl))))).
Defined.

Lemma add_favorite_missing_field_witness :
  add_favorite favor_nameless (world_storing [chelsea_fav]) =
  (Raise (HTTPException 400 "Bad Request"), world_storing [chelsea_fav]).
Proof.
  exact (add_favorite_missing_field favor_nameless (world_storing [chelsea_fav])
           (or_intror eq_refl)).
Defined.

Lemma chelsea_stored : Forall has_id [chelsea_fav].
Proof. constructor; [apply has_id_new_favorite | constructor]. Defined.

Lemma add_favorite_appends_new_team_witness :
  add_favorite favor_arsenal (world_storing [chelsea_fav]) =
  (Ok (mkRedirect "/" 302),
   world_storing [chelsea_fav; new_favorite "57" "Arsenal FC"]).
Proof.
  exact (add_favorite_appends_new_team favor_arsenal (world_storing [chelsea_fav])
           "57" "Arsenal FC" eq_refl eq_refl chelsea_stored).
Defined.

Lemma add_favorite_idempotent_witness :
  add_favorite favor_arsenal
    (world_storing [chelsea_fav; new_favorite "57" "Arsenal FC"]) =
  (Ok (mkRedirect "/" 302),
   world_storing [chelsea_fav; new_favorite "57" "Arsenal FC"]).
Proof.
  exact (add_favorite_idempotent favor_arsenal (world_storing [chelsea_fav])
           "57" "Arsenal FC" eq_refl eq_refl chelsea_stored).
Defined.

Lemma add_favorite_keeps_ids_distinct_witness :
  Forall has_id [chelsea_fav; new_favorite "57" "Arsenal FC"] ∧
  NoDup [JStr "61"; JStr "57"].
Proof.
  exact (add_favorite_keeps_ids_distinct favor_arsenal (world_storing [chelsea_fav])
           chelsea_stored (NoDup_singleton (JStr "61"))).
Defined.

Lemma number_has_no_id : ¬ Forall has_id [chelsea_fav; JNum 57].
Proof.
  intros H. apply Forall_cons in H as [_ H]. apply Forall_cons in H as [H _].
  destruct H as (o & v & [=] & _).
Defined.

Lemma add_favorite_unreadable_store_witness :
  ∃ e, add_favorite favor_arsenal (world_storing [chelsea_fav; JNum 57]) =
       (Raise e, world_storing [chelsea_fav; JNum 57]).
Proof.
  exact (add_favorite_unreadable_store favor_arsenal
           (world_storing [chelsea_fav; JNum 57]) "57" "Arsenal FC"
           eq_refl eq_refl number_has_no_id).
Defined.

Lemma added_favorite_is_listed_witness :
  ∃ page,
    (index visit (add_favorite favor_arsenal (world_storing [chelsea_fav])).2).1
      = Ok page ∧
    context page !! "favorites" =
      Some (PJson (JArr [chelsea_fav;
                         JObj {[ "id" := JStr "57"; "name" := JStr "Arsenal FC" ]}])).
Proof.
  exact (added_favorite_is_listed favor_arsenal visit (world_storing [chelsea_fav])
           "57" "Arsenal FC" eq_refl eq_refl chelsea_stored eq_refl).
Defined.
